(** * auto-trading-system: chandelier-stop strategy and admin front-end

    A shallow embedding of

    - the Python functions of [docs/ce.md] (the chandelier-stop strategy:
      [calculate_dynamic_stop], [update_trailing_stop], [add_position_check]
      and the position-size computation), and
    - the WebSocket message handler of [admin/static/js/main.js], and
    - the methods of the admin components that read or mirror its state:
      the dashboard's message list, the real-time monitor's price
      histories, the order list's status texts and the stock list's
      strategy switches.

    Python floats are idealised as exact rationals ([Q]); equalities between
    prices are therefore stated with [==] ([Qeq]).  Python exceptions are
    results of type [Result]. *)

From Stdlib Require Import QArith Qminmax Qabs Qpower ZArith Lia Lqa.
From stdpp Require Import base option list strings gmap.

(** ** Python values and exceptions *)
Module Py.

Inductive Exception : Type :=
  | KeyError
  | ValueError
  | ZeroDivisionError.

Inductive Result (A : Type) : Type :=
  | Ok (a : A)
  | Raise (e : Exception).
Arguments Ok {A} a.
Arguments Raise {A} e.

Definition bind {A B : Type} (r : Result A) (k : A -> Result B) : Result B :=
  match r with
  | Ok a => k a
  | Raise e => Raise e
  end.

Notation "'try!' x ':=' r 'in' k" := (bind r (fun x => k))
  (at level 10, x name, r at level 100, k at level 200).

(** [d[key]] on a dict with string keys. *)
Definition getitem (d : gmap string Q) (key : string) : Result Q :=
  match d !! key with
  | Some v => Ok v
  | None => Raise KeyError
  end.

(** [a < b] and [a > b] on floats. *)
Definition lt (a b : Q) : bool := negb (Qle_bool b a).
Definition gt (a b : Q) : bool := lt b a.

(** [max(a, b)]: the first argument unless the second is strictly larger. *)
Definition max2 (a b : Q) : Q := if lt a b then b else a.

(** [max(xs)] on an iterable: [ValueError] when it is empty. *)
Definition max_iter (xs : list Q) : Result Q :=
  match xs with
  | [] => Raise ValueError
  | x :: rest => Ok (fold_left max2 rest x)
  end.

(** [a / b] on floats: [ZeroDivisionError] when the divisor is zero. *)
Definition truediv (a b : Q) : Result Q :=
  if Qeq_bool b 0 then Raise ZeroDivisionError else Ok (a / b)%Q.

(** [a ** n] for a float base and a non-negative int exponent. *)
Definition pow (a : Q) (n : nat) : Q := (a ^ Z.of_nat n)%Q.

End Py.

Import Py.

(** ** docs/ce.md: the strategy functions *)
Module Chandelier.

Local Open Scope Q_scope.

(** The attributes of [strategy] that the functions read. *)
Record Strategy : Type := mkStrategy {
  last_close : Q;
  entry_price : Q;
  current_risk : Q;
  add_count : nat;
  init_size : Q
}.

(** The attributes of the module-level [params]. *)
Record Params : Type := mkParams {
  daily_multiplier : Q;
  hourly_multiplier : Q;
  max_add_times : nat;
  add_ratio : Q
}.

(** The module-level names the functions refer to. *)
Record Globals : Type := mkGlobals {
  params : Params;
  atr : gmap string Q;
  initial_risk : Q;
  atr_current : Q
}.

(** [calculate_dynamic_stop] (section 5.1).  Its free names are taken as
    arguments; [last_8_hours_high] is the iterable handed to [max]. *)
Definition calculate_dynamic_stop
    (last_22_days_high current_day_high daily_atr : Q)
    (last_8_hours_high : list Q) (hourly_atr : Q) : Result Q :=
  let daily_high := max2 last_22_days_high current_day_high in
  let daily_stop := daily_high - 3 * daily_atr in
  try! hourly_high := max_iter last_8_hours_high in
  let hourly_stop := hourly_high - 2 * hourly_atr in
  Ok (max2 daily_stop hourly_stop).

(** [update_trailing_stop] (section 8.1). *)
Definition update_trailing_stop
    (g : Globals) (strategy : Strategy) (new_high : gmap string Q) : Result Q :=
  try! nh_d := getitem new_high "daily" in
  try! atr_d := getitem (atr g) "daily" in
  let daily_stop := nh_d - daily_multiplier (params g) * atr_d in
  try! nh_h := getitem new_high "hourly" in
  try! atr_h := getitem (atr g) "hourly" in
  let hourly_stop := nh_h - hourly_multiplier (params g) * atr_h in
  let final_stop := max2 daily_stop hourly_stop in
  let final_stop :=
    if lt final_stop (last_close strategy * 0.98)
    then last_close strategy * 0.98
    else final_stop in
  Ok final_stop.

(** The value of [final_stop] in [update_trailing_stop] before the
    gap-protection test, from the four numbers read from the dicts. *)
Definition candidate (g : Globals) (nh_d atr_d nh_h atr_h : Q) : Q :=
  max2 (nh_d - daily_multiplier (params g) * atr_d)
       (nh_h - hourly_multiplier (params g) * atr_h).

(** The position-size computation (section 6.1); the risk fraction is the
    constant 1% of the source. *)
Definition risk_fraction : Q := 0.01.

Definition position_size
    (account_value entry_price initial_stop : Q) : Result Q :=
  let risk_per_trade := account_value * risk_fraction in
  truediv risk_per_trade (entry_price - initial_stop).

(** The keyword arguments of the call [strategy.add_position(...)]. *)
Record AddPosition : Type := mkAddPosition {
  price : Q;
  size : Q;
  stop : Q
}.

(** [add_position_check] (section 8.2).  The function returns nothing; its
    effect is the call [strategy.add_position(price=, size=, stop=)], made
    or not.  The result is that call, if it is made. *)
Definition add_position_check
    (g : Globals) (current_price : Q) (strategy : Strategy)
    : option AddPosition :=
  let cond1 := gt current_price (entry_price strategy * 1.03) in
  let cond2 := lt (current_risk strategy) (initial_risk g * 0.7) in
  let cond3 := Nat.ltb (add_count strategy) (max_add_times (params g)) in
  if cond1 && cond2 && cond3 then
    let new_size :=
      init_size strategy * pow (add_ratio (params g)) (add_count strategy) in
    Some (mkAddPosition current_price new_size
                        (current_price - 1.5 * atr_current g))
  else None.

(** The add conditions in the words of the specification, to compare with
    [add_position_check]: the price is a new high since entry
    ([high_since_entry] is the highest price seen from entry up to, not
    including, the current price), the current risk is below 0.7 of the
    initial risk, the add count is below the maximum and the current ATR is
    below 1.5 times the initial ATR. *)
Definition spec_add_conditions
    (high_since_entry initial_atr : Q)
    (g : Globals) (current_price : Q) (strategy : Strategy) : bool :=
  gt current_price high_since_entry
  && lt (current_risk strategy) (initial_risk g * 0.7)
  && Nat.ltb (add_count strategy) (max_add_times (params g))
  && lt (atr_current g) (1.5 * initial_atr).



(** The dict literal [{'daily': d, 'hourly': h}]. *)
Definition by_timeframe (d h : Q) : gmap string Q :=
  <["daily" := d]> (<["hourly" := h]> ∅).

(** Concrete inputs: the scenarios of the specification and the inputs of
    the examples below. *)
Module Scenario.

(** Multipliers 3 and 2 as in section 5.1, at most two adds, add ratio 0.3. *)
Definition default_params : Params := mkParams 3 2 2 0.3.

(** Entry at 100 with 2000 units and an initial risk of 10,000; the current
    risk has dropped to 0.6 of it; no add made yet. *)
Definition strategy_after_entry (last_close : Q) : Strategy :=
  mkStrategy last_close 100 6000 0 2000.

(** The same position after one add. *)
Definition strategy_after_first_add (last_close : Q) : Strategy :=
  mkStrategy last_close 100 6000 1 2000.

(** Globals with the given daily and hourly ATR; initial ATR 2.5. *)
Definition globals (atr_d atr_h atr_current : Q) : Globals :=
  mkGlobals default_params (by_timeframe atr_d atr_h) 10000 atr_current.

Definition initial_atr : Q := 2.5.

End Scenario.

End Chandelier.

(** ** The risk matrix (section 7 of docs/ce.md) *)
Module RiskMonitor.

Local Open Scope Q_scope.

(** Modelled from the spec: the repository documents the risk matrix as a
    table only and has no code for the RiskMonitor; the types below are the
    data model of the specification (section 3), with a kind for each of
    the five rows of its matrix. *)
Inductive Direction : Type := long | short.

Inductive Kind : Type :=
  | reversal | liquidity | volatility | resistance | overnight.

Inductive Action : Type :=
  | flatten | halt_adds | reduce_50 | reduce_20 | reduce_30.

Record RiskEvent : Type := mkRiskEvent {
  kind : Kind;
  metric_value : Q;
  action : Action
}.

Record Position : Type := mkPosition {
  direction : Direction;
  final_stop : Q
}.

Record MarketSnapshot : Type := mkSnapshot {
  price : Q;
  order_book_depth : Q;
  average_daily_volume : Q;
  atr_15m : Q;
  atr_daily : Q;
  overnight_window : bool;
  current_exposure : Q
}.

Record RiskParams : Type := mkRiskParams {
  resistance_band : Q * Q;
  overnight_limit : Q
}.

#[global] Instance Kind_eq_dec : EqDecision Kind.
Proof. solve_decision. Defined.

#[global] Instance Action_eq_dec : EqDecision Action.
Proof. solve_decision. Defined.

(** Modelled from the spec: the RiskMonitor's rows (section 4.3 of the
    specification), one function per row; a row yields its event when its
    condition holds.  Row 1: the price has crossed the active stop against
    the direction. *)
Definition crossed_stop (pos : Position) (snap : MarketSnapshot) : bool :=
  match direction pos with
  | long => lt (price snap) (final_stop pos)
  | short => gt (price snap) (final_stop pos)
  end.

(** Modelled from the spec: row 1, trend reversal, action flatten. *)
Definition row_reversal (_ : RiskParams) (pos : Position)
    (snap : MarketSnapshot) : option RiskEvent :=
  if crossed_stop pos snap
  then Some (mkRiskEvent reversal (price snap) flatten) else None.

(** Modelled from the spec: row 2, order-book depth below 5% of the
    average daily volume, action halt-adds. *)
Definition row_liquidity (_ : RiskParams) (_ : Position)
    (snap : MarketSnapshot) : option RiskEvent :=
  if lt (order_book_depth snap) (0.05 * average_daily_volume snap)
  then Some (mkRiskEvent liquidity (order_book_depth snap) halt_adds)
  else None.

(** Modelled from the spec: row 3, 15-minute ATR above 1.5 times the
    daily ATR, action reduce-50. *)
Definition volatility_spike (snap : MarketSnapshot) : bool :=
  gt (atr_15m snap) (1.5 * atr_daily snap).

(** Modelled from the spec: the event of row 3. *)
Definition row_volatility (_ : RiskParams) (_ : Position)
    (snap : MarketSnapshot) : option RiskEvent :=
  if volatility_spike snap
  then Some (mkRiskEvent volatility (atr_15m snap) reduce_50) else None.

(** Modelled from the spec: row 4, price inside the configured resistance
    band, action reduce-20. *)
Definition row_resistance (p : RiskParams) (_ : Position)
    (snap : MarketSnapshot) : option RiskEvent :=
  if Qle_bool (fst (resistance_band p)) (price snap)
     && Qle_bool (price snap) (snd (resistance_band p))
  then Some (mkRiskEvent resistance (price snap) reduce_20) else None.

(** Modelled from the spec: row 5, overnight window with the exposure over
    the configured limit, action reduce-30. *)
Definition row_overnight (p : RiskParams) (_ : Position)
    (snap : MarketSnapshot) : option RiskEvent :=
  if overnight_window snap && gt (current_exposure snap) (overnight_limit p)
  then Some (mkRiskEvent overnight (current_exposure snap) reduce_30)
  else None.

(** Modelled from the spec: the matrix, rows in priority order. *)
Definition matrix
    : list (RiskParams -> Position -> MarketSnapshot -> option RiskEvent) :=
  [row_reversal; row_liquidity; row_volatility; row_resistance; row_overnight].

(** Modelled from the spec: [evaluate(position, market_snapshot, params)],
    the events of the qualifying rows in priority order. *)
Definition evaluate (pos : Position) (snap : MarketSnapshot) (p : RiskParams)
    : list RiskEvent :=
  omap (fun row => row p pos snap) matrix.

(** Modelled from the spec: the first qualifying match governs the
    mandatory action of the cycle. *)
Definition mandatory_action (events : list RiskEvent) : option Action :=
  action <$> head events.

(** Modelled from the spec: a volatility event instructs the StopCalculator
    to use the tightened multiplier. *)
Definition tighten_multiplier (events : list RiskEvent) : bool :=
  existsb (fun ev => bool_decide (kind ev = volatility)) events.

(** Concrete inputs: a long position with its stop at 100, and a snapshot
    with the given price, 15-minute ATR and daily ATR (depth 10,000 against
    an average daily volume of 100,000, outside the overnight window). *)
Module Scenario.

Definition long_stop_100 : Position := mkPosition long 100.

Definition snapshot (price atr_15m atr_daily : Q) : MarketSnapshot :=
  mkSnapshot price 10000 100000 atr_15m atr_daily false 0.

Definition risk_params : RiskParams := mkRiskParams (150, 155) 1000000.

End Scenario.

End RiskMonitor.

(** ** admin/static/js/main.js: the WebSocket manager *)
Module WsManager.

(** JavaScript values as [JSON.parse] builds them, with [undefined] and the
    [Date] objects the handler adds.  An object is the list of its own
    properties in insertion order. *)
#[local] Unset Elimination Schemes.
Inductive Value : Type :=
  | JUndefined
  | JNull
  | JBool (b : bool)
  | JNum (q : Q)
  | JStr (s : string)
  | JDate (ms : Z)
  | JArr (items : list Value)
  | JObj (props : list (string * Value)).
#[local] Set Elimination Schemes.

Definition Props : Type := list (string * Value).

Fixpoint props_get (props : Props) (key : string) : Value :=
  match props with
  | [] => JUndefined
  | (k, v) :: rest => if String.eqb k key then v else props_get rest key
  end.

Fixpoint props_set (props : Props) (key : string) (v : Value) : Props :=
  match props with
  | [] => [(key, v)]
  | (k, w) :: rest =>
      if String.eqb k key then (k, v) :: rest
      else (k, w) :: props_set rest key v
  end.

(** [v.key] for a key that no prototype defines: a [TypeError] ([None]) on
    [null] and [undefined], [undefined] on the other values without that own
    property. *)
Definition get (v : Value) (key : string) : option Value :=
  match v with
  | JUndefined | JNull => None
  | JObj props => Some (props_get props key)
  | _ => Some JUndefined
  end.

(** [if (v)]. *)
Definition truthy (v : Value) : bool :=
  match v with
  | JUndefined | JNull => false
  | JBool b => b
  | JNum q => negb (Qeq_bool q 0)
  | JStr s => negb (String.eqb s "")
  | _ => true
  end.

(** [a === b]; two objects or arrays that come from different messages are
    different references. *)
Definition strict_eq (a b : Value) : bool :=
  match a, b with
  | JUndefined, JUndefined | JNull, JNull => true
  | JBool x, JBool y => Bool.eqb x y
  | JNum x, JNum y => Qeq_bool x y
  | JStr x, JStr y => String.eqb x y
  | _, _ => false
  end.

(** [{...a, ...b}] on the properties of two objects. *)
Definition spread (a b : Props) : Props :=
  fold_left (fun acc kv => props_set acc (fst kv) (snd kv)) b a.

(** The own enumerable properties that [...v] copies; the handler spreads
    objects and [undefined] only. *)
Definition own_props (v : Value) : Props :=
  match v with
  | JObj props => props
  | _ => []
  end.

(** An element of [messages]. *)
Record Entry : Type := mkEntry {
  id : Z;
  time : Z;
  type : Value;
  data : Value
}.

(** The mutable fields of [wsManager] that the handler touches. *)
Record State : Type := mkState {
  messages : list Entry;
  marketData : gmap string Props;
  orderUpdates : list Props
}.

Section Handler.

(** [JSON.parse], [None] for a [SyntaxError], and the conversion of a value
    to a property key. *)
Variable JSON_parse : string -> option Value.
Variable to_property_key : Value -> string.

(** [Array.prototype.shift]. *)
Definition shift {A : Type} (l : list A) : list A := tail l.

(** [orderUpdates.findIndex(order => order.order_id === order_id)]. *)
Fixpoint findIndex (orders : list Props) (order_id : Value) : option nat :=
  match orders with
  | [] => None
  | order :: rest =>
      if strict_eq (props_get order "order_id") order_id then Some 0%nat
      else S <$> findIndex rest order_id
  end.

(** [updateMarketData(data)]; a [TypeError] leaves the state as it is. *)
Definition updateMarketData (now : Z) (d : Value) (this : State) : State :=
  match get d "symbol" with
  | None => this
  | Some symbol =>
      if truthy symbol then
        let key := to_property_key symbol in
        let old := default [] (marketData this !! key) in
        let new := props_set (spread old (own_props d)) "lastUpdate" (JDate now) in
        mkState (messages this) (<[key := new]> (marketData this))
                (orderUpdates this)
      else this
  end.

(** [updateOrderData(data)]. *)
Definition updateOrderData (now : Z) (d : Value) (this : State) : State :=
  match get d "order_id" with
  | None => this
  | Some order_id =>
      if truthy order_id then
        match findIndex (orderUpdates this) order_id with
        | Some index =>
            let old := default [] (orderUpdates this !! index) in
            let new :=
              props_set (spread old (own_props d)) "lastUpdate" (JDate now) in
            mkState (messages this) (marketData this)
                    (<[index := new]> (orderUpdates this))
        | None =>
            let new := props_set (own_props d) "lastUpdate" (JDate now) in
            mkState (messages this) (marketData this)
                    (orderUpdates this ++ [new])
        end
      else this
  end.

(** The [ws.onmessage] handler on the event's [data], at clock reading
    [now].  An exception ends the handler and keeps the writes made so far. *)
Definition onmessage (now : Z) (event_data : string) (this : State) : State :=
  match JSON_parse event_data with
  | None => this
  | Some message =>
      match get message "type", get message "data" with
      | Some ty, Some da =>
          let pushed := messages this ++ [mkEntry now now ty da] in
          let kept :=
            if (100 <? length pushed)%nat then shift pushed else pushed in
          let this := mkState kept (marketData this) (orderUpdates this) in
          if strict_eq ty (JStr "market_data") then updateMarketData now da this
          else if strict_eq ty (JStr "order_update")
               then updateOrderData now da this
               else this
      | _, _ => this
      end
  end.

(** The handler run on a sequence of events, oldest first. *)
Definition run (events : list (Z * string)) (this : State) : State :=
  fold_left (fun st ev => onmessage (fst ev) (snd ev) st) events this.

End Handler.

(** [messages: [], marketData: {}, orderUpdates: []]. *)
Definition initial : State := mkState [] ∅ [].

(** The entry that the handler pushes for an event, if it pushes one. *)
Definition entry_of (JSON_parse : string -> option Value)
    (ev : Z * string) : option Entry :=
  match JSON_parse (snd ev) with
  | Some message =>
      match get message "type", get message "data" with
      | Some ty, Some da => Some (mkEntry (fst ev) (fst ev) ty da)
      | _, _ => None
      end
  | None => None
  end.

(** [l.slice(-n)] for a positive [n]: the last [n] elements, all of [l]
    when it is shorter. *)
Definition slice_last {A : Type} (n : nat) (l : list A) : list A :=
  drop (length l - n) l.

(** An object as [JSON.parse] builds it has each key once. *)
Definition unique_keys (props : Props) : Prop := NoDup props.*1.

(** [new] is [{...old, ...props, lastUpdate: new Date()}] read property by
    property: the clock reading under [lastUpdate], the value of [props]
    for each of its other keys, the value of [old] for the rest. *)
Definition merged_with (now : Z) (props old new : Props) : Prop :=
  props_get new "lastUpdate" = JDate now /\
  (forall k v, (k, v) ∈ props -> k <> "lastUpdate" -> props_get new k = v) /\
  (forall k, k ∉ props.*1 -> k <> "lastUpdate" ->
     props_get new k = props_get old k).

(** No two orders of the list have the same [order_id] under [===]. *)
Definition distinct_ids (orders : list Props) : Prop :=
  forall i j oi oj,
    i <> j -> orders !! i = Some oi -> orders !! j = Some oj ->
    strict_eq (props_get oi "order_id") (props_get oj "order_id") = false.

(** Concrete inputs: a parser that yields one market-data message, and the
    key conversion on strings. *)
Module Scenario.

Definition market_data_message : Value :=
  JObj [("type", JStr "market_data");
        ("data", JObj [("symbol", JStr "600000")])].

Definition parse (_ : string) : option Value := Some market_data_message.

Definition key (v : Value) : string :=
  match v with
  | JStr s => s
  | _ => ""
  end.

(** A parser that reads every text as an order update whose [order_id] is
    the text itself. *)
Definition parse_order (text : string) : option Value :=
  Some (JObj [("type", JStr "order_update");
              ("data", JObj [("order_id", JStr text);
                             ("status", JStr "FILLED")])]).

End Scenario.

End WsManager.

(** ** admin/static/js/components/Dashboard.js *)
Module Dashboard.

(** The computed property [latestMessages]; the argument is
    [window.wsManager], [None] when it is undefined. *)
Definition latestMessages (wsManager : option WsManager.State)
    : list WsManager.Entry :=
  let messages :=
    match wsManager with
    | Some w => WsManager.messages w
    | None => []
    end in
  reverse (WsManager.slice_last 10 messages).

End Dashboard.

(** ** The real-time monitor component *)
Module RealTimeMonitor.

(** An element of a price history. *)
Record Point : Type := mkPoint {
  time : Z;
  price : WsManager.Value
}.

(** The component's data that the handler touches. *)
Record State : Type := mkMonitor {
  marketData : gmap string WsManager.Props;
  priceHistory : gmap string (list Point);
  selectedSymbol : string;
  maxDataPoints : nat
}.

(** The property names that every object inherits from [Object.prototype];
    [priceHistory[key]] is truthy, and no array, for these keys as long as
    the object has no own property of that name. *)
Definition inherited_keys : list string :=
  ["constructor"; "__proto__"; "hasOwnProperty"; "isPrototypeOf";
   "propertyIsEnumerable"; "toLocaleString"; "toString"; "valueOf";
   "__defineGetter__"; "__defineSetter__"; "__lookupGetter__";
   "__lookupSetter__"].

Section Handler.

Variable to_property_key : WsManager.Value -> string.
(** [Object.keys]. *)
Variable object_keys : gmap string WsManager.Props -> list string.

(** [handleMarketDataUpdate(event)] on [event.detail], at clock reading
    [now], with [window.wsManager] as for the dashboard.  A [TypeError] ends
    the handler and keeps the writes made so far; the redraw of the chart is
    not part of the state. *)
Definition handleMarketDataUpdate (now : Z) (detail : WsManager.Value)
    (wsManager : option WsManager.State) (this : State) : State :=
  let this :=
    mkMonitor (match wsManager with
               | Some w => WsManager.marketData w
               | None => ∅
               end)
              (priceHistory this) (selectedSymbol this) (maxDataPoints this) in
  match WsManager.get detail "symbol", WsManager.get detail "price" with
  | Some symbol, Some price =>
      if WsManager.truthy symbol && WsManager.truthy price then
        let key := to_property_key symbol in
        let existing :=
          match priceHistory this !! key with
          | Some h => Some h
          | None => if bool_decide (key ∈ inherited_keys) then None else Some []
          end in
        match existing with
        | None => this
        | Some h =>
            let pushed := h ++ [mkPoint now price] in
            let kept :=
              if (maxDataPoints this <? length pushed)%nat
              then WsManager.shift pushed else pushed in
            let selected :=
              if String.eqb (selectedSymbol this) ""
                 && (0 <? length (object_keys (marketData this)))%nat
              then default "" (head (object_keys (marketData this)))
              else selectedSymbol this in
            mkMonitor (marketData this) (<[key := kept]> (priceHistory this))
                      selected (maxDataPoints this)
        end
      else this
  | _, _ => this
  end.

(** The handler run on a sequence of events, oldest first; an event is the
    clock reading, [event.detail] and [window.wsManager] at that time. *)
Definition handle_all
    (events : list (Z * WsManager.Value * option WsManager.State))
    (this : State) : State :=
  fold_left
    (fun st ev => handleMarketDataUpdate (fst (fst ev)) (snd (fst ev)) (snd ev) st)
    events this.

End Handler.

(** Every price history is within [maxDataPoints]. *)
Definition bounded (this : State) : Prop :=
  forall key h, priceHistory this !! key = Some h ->
                length h ≤ maxDataPoints this.

(** The component's [data()]. *)
Definition initial : State := mkMonitor ∅ ∅ "" 100.

End RealTimeMonitor.

(** ** admin/static/js/components/OrderManagement.js *)
Module OrderManagement.

Import WsManager.

(** [statusOptions]: the pairs of [value] and [label]. *)
Definition statusOptions : list (string * string) :=
  [("SUBMITTED", "已提交"); ("FILLED", "已成交");
   ("PARTIALLY_FILLED", "部分成交"); ("CANCELLED", "已取消");
   ("REJECTED", "已拒绝")].

(** [getStatusType(status)]. *)
Definition getStatusType (status : Value) : string :=
  if strict_eq status (JStr "SUBMITTED") then "info"
  else if strict_eq status (JStr "FILLED") then "success"
  else if strict_eq status (JStr "PARTIALLY_FILLED") then "warning"
  else if strict_eq status (JStr "CANCELLED") then "danger"
  else if strict_eq status (JStr "REJECTED") then "danger"
  else "info".

(** [getStatusText(status)]. *)
Definition getStatusText (status : Value) : Value :=
  if strict_eq status (JStr "SUBMITTED") then JStr "已提交"
  else if strict_eq status (JStr "FILLED") then JStr "已成交"
  else if strict_eq status (JStr "PARTIALLY_FILLED") then JStr "部分成交"
  else if strict_eq status (JStr "CANCELLED") then JStr "已取消"
  else if strict_eq status (JStr "REJECTED") then JStr "已拒绝"
  else status.

(** The label that [statusOptions] gives a status, if it lists it. *)
Definition option_label (status : Value) : option string :=
  snd <$> find (fun o => strict_eq status (JStr (fst o))) statusOptions.

End OrderManagement.

(** ** The stock configuration component *)
Module StockConfig.

Import WsManager.

(** [v?.key]: [undefined] when [v] is [null] or [undefined]. *)
Definition opt_get (v : Value) (key : string) : Value :=
  default JUndefined (get v key).

(** [v || false]. *)
Definition or_false (v : Value) : Value :=
  if truthy v then v else JBool false.

(** [getStrategyStatus(stock, strategy)]; [None] is the [TypeError] of
    [stock.config] on a [null] or [undefined] stock. *)
Definition getStrategyStatus (stock strategy : Value) : option Value :=
  if strict_eq strategy (JStr "high_open") then
    match get stock "config" with
    | Some config =>
        Some (or_false (opt_get (opt_get config "high_open") "enabled"))
    | None => None
    end
  else if strict_eq strategy (JStr "auto_trade") then
    match get stock "config" with
    | Some config =>
        Some (or_false
                (opt_get (opt_get (opt_get config "strategies") "auto_trade")
                         "enabled"))
    | None => None
    end
  else Some (JBool false).

(** The stock that [showAddDialog] puts in the form, reduced to the fields
    on the two paths, with the given [enabled] flags. *)
Definition form_stock (high_open auto_trade : Value) : Value :=
  JObj [("symbol", JStr ""); ("name", JStr ""); ("enabled", JBool true);
        ("config",
         JObj [("high_open", JObj [("enabled", high_open)]);
               ("strategies",
                JObj [("auto_trade", JObj [("enabled", auto_trade)])])])].

End StockConfig.

(** * Properties *)

(** ** Comparisons and [max] *)
Module PyFacts.

Local Open Scope Q_scope.

Lemma lt_true (a b : Q) : lt a b = true <-> a < b.
Proof.
  unfold lt. rewrite negb_true_iff, <- not_true_iff_false, Qle_bool_iff.
  split; [apply Qnot_le_lt | apply Qlt_not_le].
Qed.

Lemma lt_false (a b : Q) : lt a b = false <-> b <= a.
Proof.
  unfold lt. rewrite negb_false_iff. apply Qle_bool_iff.
Qed.

Lemma gt_true (a b : Q) : gt a b = true <-> b < a.
Proof. apply lt_true. Qed.

Lemma max2_cases (a b : Q) :
  (a < b /\ max2 a b = b) \/ (b <= a /\ max2 a b = a).
Proof.
  unfold max2. destruct (lt a b) eqn:E.
  - left. split; [by apply lt_true | done].
  - right. split; [by apply lt_false | done].
Qed.

Lemma max2_ge_l (a b : Q) : a <= max2 a b.
Proof. destruct (max2_cases a b) as [[H ->]|[H ->]]; lra. Qed.

Lemma max2_ge_r (a b : Q) : b <= max2 a b.
Proof. destruct (max2_cases a b) as [[H ->]|[H ->]]; lra. Qed.

Lemma max2_lub (a b c : Q) : a <= c -> b <= c -> max2 a b <= c.
Proof. intros. by destruct (max2_cases a b) as [[_ ->]|[_ ->]]. Qed.

Lemma max2_mono (a b a' b' : Q) :
  a <= a' -> b <= b' -> max2 a b <= max2 a' b'.
Proof.
  intros Ha Hb. apply max2_lub.
  - eapply Qle_trans; [exact Ha | apply max2_ge_l].
  - eapply Qle_trans; [exact Hb | apply max2_ge_r].
Qed.

(** Python's two-argument [max] is the mathematical maximum. *)
Lemma max2_Qmax (a b : Q) : max2 a b == Qmax a b.
Proof.
  destruct (max2_cases a b) as [[H ->]|[H ->]].
  - symmetry. apply Q.max_r. lra.
  - symmetry. by apply Q.max_l.
Qed.

Lemma fold_max2_ge (rest : list Q) (x : Q) :
  x <= fold_left max2 rest x /\
  Forall (fun y => y <= fold_left max2 rest x) rest.
Proof.
  revert x. induction rest as [|y rest IH]; intros x; simpl.
  - split; [lra | constructor].
  - destruct (IH (max2 x y)) as [Hm Hall]. split; [|constructor].
    + eapply Qle_trans; [apply max2_ge_l | exact Hm].
    + eapply Qle_trans; [apply max2_ge_r | exact Hm].
    + exact Hall.
Qed.

Lemma fold_max2_elem (rest : list Q) (x : Q) :
  fold_left max2 rest x ∈ x :: rest.
Proof.
  revert x. induction rest as [|y rest IH]; intros x; simpl.
  - apply list_elem_of_here.
  - specialize (IH (max2 x y)).
    apply elem_of_cons in IH as [E | IH].
    + rewrite E. destruct (max2_cases x y) as [[_ ->]|[_ ->]].
      * apply list_elem_of_further, list_elem_of_here.
      * apply list_elem_of_here.
    + by do 2 apply list_elem_of_further.
Qed.

(** [max(xs)] returns an element of a non-empty [xs] that bounds the others. *)
Lemma max_iter_spec (xs : list Q) :
  xs <> [] ->
  exists m, max_iter xs = Ok m /\ m ∈ xs /\ Forall (fun y => y <= m) xs.
Proof.
  destruct xs as [|x rest]; [done | intros _].
  exists (fold_left max2 rest x). split; [done | split].
  - apply fold_max2_elem.
  - destruct (fold_max2_ge rest x). by constructor.
Qed.

Lemma getitem_Some (d : gmap string Q) (key : string) (v : Q) :
  d !! key = Some v -> getitem d key = Ok v.
Proof. unfold getitem. by intros ->. Qed.

End PyFacts.

(** ** The stop computations *)
Module StopFacts.

Import Chandelier PyFacts.
Local Open Scope Q_scope.

(** C7 (hybrid timeframe combination).  With data on both timeframes
    [calculate_dynamic_stop] returns the maximum of the daily stop
    (daily high minus 3 daily ATR) and the hourly stop (hourly high minus
    2 hourly ATR), the hourly high being the largest of the hourly highs; a
    daily stop of 118 and an hourly stop of 121 give 121. *)
Theorem hybrid_stop_is_max
    (last_22_days_high current_day_high daily_atr hourly_atr : Q)
    (last_8_hours_high : list Q) (Hvalid : last_8_hours_high <> []) :
  exists hourly_high final_stop,
    max_iter last_8_hours_high = Ok hourly_high /\
    hourly_high ∈ last_8_hours_high /\
    Forall (fun h => h <= hourly_high) last_8_hours_high /\
    calculate_dynamic_stop last_22_days_high current_day_high daily_atr
                           last_8_hours_high hourly_atr = Ok final_stop /\
    let daily_stop :=
      Qmax last_22_days_high current_day_high - 3 * daily_atr in
    let hourly_stop := hourly_high - 2 * hourly_atr in
    final_stop == Qmax daily_stop hourly_stop /\
    (daily_stop == 118 -> hourly_stop == 121 -> final_stop == 121).
Proof.
  destruct (max_iter_spec last_8_hours_high Hvalid) as (m & Hm & Hin & Hall).
  exists m, (max2 (max2 last_22_days_high current_day_high - 3 * daily_atr)
                  (m - 2 * hourly_atr)).
  split; [exact Hm | split; [exact Hin | split; [exact Hall | split]]].
  - unfold calculate_dynamic_stop. rewrite Hm. reflexivity.
  - cbv zeta.
    assert (E : max2 (max2 last_22_days_high current_day_high - 3 * daily_atr)
                     (m - 2 * hourly_atr)
                == Qmax (Qmax last_22_days_high current_day_high - 3 * daily_atr)
                        (m - 2 * hourly_atr)).
    { rewrite max2_Qmax. apply Q.max_compat; [|reflexivity].
      by rewrite max2_Qmax. }
    split; [exact E |].
    intros Hd Hh. rewrite E, Hd, Hh. reflexivity.
Qed.

Lemma hybrid_stop_is_max_witness :
  exists final_stop,
    calculate_dynamic_stop 130 128 4 [120; 125; 124] 2 = Ok final_stop /\
    final_stop == 121.
Proof.
  destruct (hybrid_stop_is_max 130 128 4 2 [120; 125; 124])
    as (hh & fs & Hh & _ & _ & Hfs & _ & H121); [done |].
  exists fs. split; [exact Hfs |].
  injection Hh as <-. apply H121; reflexivity.
Defined.

(** The candidate of [update_trailing_stop] is the maximum of its daily and
    hourly stops. *)
Lemma candidate_is_max (g : Globals) (nh_d atr_d nh_h atr_h : Q) :
  candidate g nh_d atr_d nh_h atr_h
  == Qmax (nh_d - daily_multiplier (params g) * atr_d)
          (nh_h - hourly_multiplier (params g) * atr_h).
Proof. apply max2_Qmax. Qed.

Lemma update_trailing_stop_eq g strategy new_high nh_d nh_h atr_d atr_h :
  new_high !! "daily" = Some nh_d -> new_high !! "hourly" = Some nh_h ->
  atr g !! "daily" = Some atr_d -> atr g !! "hourly" = Some atr_h ->
  update_trailing_stop g strategy new_high =
    Ok (if lt (candidate g nh_d atr_d nh_h atr_h) (last_close strategy * 0.98)
        then last_close strategy * 0.98
        else candidate g nh_d atr_d nh_h atr_h).
Proof.
  intros H1 H2 H3 H4. unfold update_trailing_stop.
  rewrite (getitem_Some _ _ _ H1), (getitem_Some _ _ _ H2),
          (getitem_Some _ _ _ H3), (getitem_Some _ _ _ H4).
  reflexivity.
Qed.

(** C6 (gap protection).  With highs and ATRs present for both timeframes,
    [update_trailing_stop] returns exactly [last_close * 0.98] when the
    candidate [max(daily_stop, hourly_stop)] is strictly below it, and the
    candidate itself, unchanged, when it is at or above that bound. *)
Theorem gap_protection
    (g : Globals) (strategy : Strategy) (new_high : gmap string Q)
    (nh_d nh_h atr_d atr_h : Q)
    (Hnd : new_high !! "daily" = Some nh_d)
    (Hnh : new_high !! "hourly" = Some nh_h)
    (Had : atr g !! "daily" = Some atr_d)
    (Hah : atr g !! "hourly" = Some atr_h) :
  exists final_stop,
    update_trailing_stop g strategy new_high = Ok final_stop /\
    (candidate g nh_d atr_d nh_h atr_h < last_close strategy * 0.98 ->
       final_stop = last_close strategy * 0.98) /\
    (last_close strategy * 0.98 <= candidate g nh_d atr_d nh_h atr_h ->
       final_stop = candidate g nh_d atr_d nh_h atr_h).
Proof.
  rewrite (update_trailing_stop_eq _ _ _ _ _ _ _ Hnd Hnh Had Hah).
  eexists. split; [reflexivity |].
  destruct (lt _ _) eqn:E.
  - apply lt_true in E. split; [done | intros; lra].
  - apply lt_false in E. split; [intros; lra | done].
Qed.

Lemma gap_protection_witness :
  exists final_stop,
    update_trailing_stop (Scenario.globals 2 1 3)
                         (Scenario.strategy_after_entry 135)
                         (by_timeframe 130 130) = Ok final_stop /\
    final_stop = 135 * 0.98.
Proof.
  destruct (gap_protection (Scenario.globals 2 1 3)
                           (Scenario.strategy_after_entry 135)
                           (by_timeframe 130 130) 130 130 2 1)
    as (fs & Hfs & Hlow & _); [reflexivity .. |].
  exists fs. split; [exact Hfs |].
  apply Hlow. reflexivity.
Defined.

(** [update_trailing_stop] keeps no previous stop: with the highs and the
    last close unchanged, a rise of the hourly ATR from 1 to 2 moves the
    stop from 128 down to 126. *)
Lemma ratchet_counterexample :
  exists before after,
    update_trailing_stop (Scenario.globals 2 1 3)
                         (Scenario.strategy_after_entry 125)
                         (by_timeframe 130 130) = Ok before /\
    update_trailing_stop (Scenario.globals 2 2 3)
                         (Scenario.strategy_after_entry 125)
                         (by_timeframe 130 130) = Ok after /\
    before == 128 /\ after == 126 /\ ~ before <= after.
Proof.
  eexists _, _. split; [vm_compute; reflexivity |].
  split; [vm_compute; reflexivity |].
  split; [reflexivity | split; [reflexivity |]].
  intros H. vm_compute in H. by apply H.
Qed.

Lemma update_trailing_stop_max g strategy new_high nh_d nh_h atr_d atr_h :
  new_high !! "daily" = Some nh_d -> new_high !! "hourly" = Some nh_h ->
  atr g !! "daily" = Some atr_d -> atr g !! "hourly" = Some atr_h ->
  update_trailing_stop g strategy new_high =
    Ok (max2 (candidate g nh_d atr_d nh_h atr_h) (last_close strategy * 0.98)).
Proof. apply update_trailing_stop_eq. Qed.

Lemma candidate_mono (g : Globals) (nh_d nh_d' atr_d atr_d' : Q)
    (nh_h nh_h' atr_h atr_h' : Q) :
  0 <= daily_multiplier (params g) -> 0 <= hourly_multiplier (params g) ->
  nh_d <= nh_d' -> nh_h <= nh_h' -> atr_d' <= atr_d -> atr_h' <= atr_h ->
  candidate g nh_d atr_d nh_h atr_h <= candidate g nh_d' atr_d' nh_h' atr_h'.
Proof.
  intros Hmd Hmh Hd Hh Had Hah. unfold candidate.
  pose proof (Qmult_le_compat_r _ _ _ Had Hmd) as Pd.
  pose proof (Qmult_le_compat_r _ _ _ Hah Hmh) as Ph.
  rewrite !(Qmult_comm _ (daily_multiplier _)) in Pd.
  rewrite !(Qmult_comm _ (hourly_multiplier _)) in Ph.
  apply max2_mono; lra.
Qed.

(** C1, as the code has it.  [update_trailing_stop] recomputes the stop from
    its inputs and does not read a previous stop.  Between two successive
    updates under the same parameters (multipliers not negative), the later
    stop is at least the earlier one whenever neither timeframe's high has
    decreased, neither ATR has increased and the last close has not
    decreased. *)
Theorem stop_monotone_in_inputs
    (g g' : Globals) (strategy strategy' : Strategy)
    (new_high new_high' : gmap string Q)
    (nh_d nh_h atr_d atr_h nh_d' nh_h' atr_d' atr_h' : Q)
    (Hnd : new_high !! "daily" = Some nh_d)
    (Hnh : new_high !! "hourly" = Some nh_h)
    (Had : atr g !! "daily" = Some atr_d)
    (Hah : atr g !! "hourly" = Some atr_h)
    (Hnd' : new_high' !! "daily" = Some nh_d')
    (Hnh' : new_high' !! "hourly" = Some nh_h')
    (Had' : atr g' !! "daily" = Some atr_d')
    (Hah' : atr g' !! "hourly" = Some atr_h')
    (Hparams : params g' = params g)
    (Hmd : 0 <= daily_multiplier (params g))
    (Hmh : 0 <= hourly_multiplier (params g))
    (Hhigh_d : nh_d <= nh_d') (Hhigh_h : nh_h <= nh_h')
    (Hatr_d : atr_d' <= atr_d) (Hatr_h : atr_h' <= atr_h)
    (Hclose : last_close strategy <= last_close strategy') :
  exists before after,
    update_trailing_stop g strategy new_high = Ok before /\
    update_trailing_stop g' strategy' new_high' = Ok after /\
    before <= after.
Proof.
  rewrite (update_trailing_stop_max _ _ _ _ _ _ _ Hnd Hnh Had Hah).
  rewrite (update_trailing_stop_max _ _ _ _ _ _ _ Hnd' Hnh' Had' Hah').
  eexists _, _. split; [reflexivity | split; [reflexivity |]].
  apply max2_mono; [| lra].
  unfold candidate at 2. rewrite Hparams. by apply candidate_mono.
Qed.

Lemma stop_monotone_in_inputs_witness :
  exists before after,
    update_trailing_stop (Scenario.globals 2 2 3)
                         (Scenario.strategy_after_entry 125)
                         (by_timeframe 130 130) = Ok before /\
    update_trailing_stop (Scenario.globals 2 1 3)
                         (Scenario.strategy_after_entry 126)
                         (by_timeframe 131 130) = Ok after /\
    before <= after.
Proof.
  apply (stop_monotone_in_inputs
           (Scenario.globals 2 2 3) (Scenario.globals 2 1 3)
           (Scenario.strategy_after_entry 125)
           (Scenario.strategy_after_entry 126)
           (by_timeframe 130 130) (by_timeframe 131 130)
           130 130 2 2 131 130 2 1);
    reflexivity || (vm_compute; discriminate).
Defined.

End StopFacts.

(** ** Position size and pyramid adds *)
Module SizingFacts.

Import Chandelier PyFacts.
Local Open Scope Q_scope.

Lemma truediv_Ok (a b : Q) : ~ b == 0 -> truediv a b = Ok (a / b).
Proof.
  intros Hb. unfold truediv. destruct (Qeq_bool b 0) eqn:E; [|done].
  by apply Qeq_bool_iff in E.
Qed.

Lemma truediv_Raise (a b : Q) : b == 0 -> truediv a b = Raise ZeroDivisionError.
Proof.
  intros Hb. unfold truediv. by rewrite (proj2 (Qeq_bool_iff b 0) Hb).
Qed.

(** C8 (initial sizing formula).  For a stop below the entry price the
    position size is (account value x risk fraction) / |entry - stop|, the
    risk fraction being the source's 1%; an account of 1,000,000 with
    entry 100 and stop 95 gives 2000. *)
Theorem position_size_formula
    (account_value entry_price initial_stop : Q)
    (Hvalid : initial_stop < entry_price) :
  exists size,
    position_size account_value entry_price initial_stop = Ok size /\
    size == (account_value * risk_fraction) / Qabs (entry_price - initial_stop) /\
    risk_fraction == 0.01 /\
    (account_value == 1000000 -> entry_price == 100 -> initial_stop == 95 ->
     size == 2000).
Proof.
  exists ((account_value * risk_fraction) / (entry_price - initial_stop)).
  split; [|split; [|split]].
  - unfold position_size. apply truediv_Ok. lra.
  - rewrite Qabs_pos by lra. reflexivity.
  - reflexivity.
  - intros -> -> ->. reflexivity.
Qed.

Lemma position_size_formula_witness :
  exists size, position_size 1000000 100 95 = Ok size /\ size == 2000.
Proof.
  destruct (position_size_formula 1000000 100 95) as (sz & Hsz & _ & _ & H);
    [reflexivity |].
  exists sz. split; [exact Hsz | apply H; reflexivity].
Defined.

(** A stop above the entry price is not rejected: the size returned is
    negative. *)
Lemma wrong_side_stop_counterexample :
  100 <= 105 /\
  exists size, position_size 1000000 100 105 = Ok size /\ size == -2000.
Proof.
  split; [discriminate |].
  eexists. split; [vm_compute; reflexivity | reflexivity].
Qed.

(** C9, as the code has it.  The position-size computation fails, with a
    [ZeroDivisionError], exactly when the entry price equals the stop; for
    every other input, a stop above the entry included, it returns
    (account value x 1%) / (entry - stop), which is negative when the stop
    is above the entry and the account value is positive. *)
Theorem position_size_fails_iff
    (account_value entry_price initial_stop : Q) :
  (position_size account_value entry_price initial_stop
     = Raise ZeroDivisionError <-> entry_price == initial_stop) /\
  (~ entry_price == initial_stop ->
   exists size,
     position_size account_value entry_price initial_stop = Ok size /\
     size == (account_value * risk_fraction) / (entry_price - initial_stop) /\
     (0 < account_value -> entry_price < initial_stop -> size < 0)).
Proof.
  unfold position_size. split; [split |].
  - intros H. destruct (Qeq_dec (entry_price - initial_stop) 0) as [E|E].
    + lra.
    + by rewrite (truediv_Ok _ _ E) in H.
  - intros H. apply truediv_Raise. lra.
  - intros Hne. eexists. split; [apply truediv_Ok; lra |].
    split; [reflexivity |].
    intros Hacc Hlt.
    assert (Hd : 0 < initial_stop - entry_price) by lra.
    assert (Hr : 0 < account_value * risk_fraction).
    { unfold risk_fraction. lra. }
    assert (Hpos : 0 < (account_value * risk_fraction)
                       / (initial_stop - entry_price)).
    { apply Qlt_shift_div_l; [exact Hd | lra]. }
    assert (E : (account_value * risk_fraction) / (entry_price - initial_stop)
                == - ((account_value * risk_fraction)
                      / (initial_stop - entry_price))).
    { field. split; lra. }
    rewrite E. lra.
Qed.

Lemma position_size_fails_iff_witness :
  position_size 1000000 100 100 = Raise ZeroDivisionError /\
  exists size, position_size 1000000 100 105 = Ok size /\ size < 0.
Proof.
  split.
  - apply (proj1 (position_size_fails_iff 1000000 100 100)). reflexivity.
  - destruct (proj2 (position_size_fails_iff 1000000 100 105))
      as (sz & Hsz & _ & Hneg); [discriminate |].
    exists sz. split; [exact Hsz | apply Hneg; reflexivity].
Defined.

Lemma add_position_check_Some g current_price strategy :
  gt current_price (entry_price strategy * 1.03) = true ->
  lt (current_risk strategy) (initial_risk g * 0.7) = true ->
  Nat.ltb (add_count strategy) (max_add_times (params g)) = true ->
  add_position_check g current_price strategy =
    Some (mkAddPosition current_price
            (init_size strategy
             * pow (add_ratio (params g)) (add_count strategy))
            (current_price - 1.5 * atr_current g)).
Proof. unfold add_position_check. by intros -> -> ->. Qed.

Lemma add_position_check_inv g current_price strategy a :
  add_position_check g current_price strategy = Some a ->
  gt current_price (entry_price strategy * 1.03) = true /\
  lt (current_risk strategy) (initial_risk g * 0.7) = true /\
  Nat.ltb (add_count strategy) (max_add_times (params g)) = true /\
  size a = init_size strategy
           * pow (add_ratio (params g)) (add_count strategy).
Proof.
  unfold add_position_check.
  destruct (gt _ _), (lt _ _), (Nat.ltb _ _); simpl; try discriminate.
  by intros [= <-].
Qed.

(** C2 (pyramid add sizing), on the code.  The size of an approved add is
    the initial size times [add_ratio ** add_count].  In the scenario
    (initial size 2000, current risk 0.6 of the initial risk, no add yet,
    ATR 1.2 times the initial ATR, price 130) the add is approved with size
    2000, not 600; the second add has size 600, which is 30% and not 15%
    of the initial size. *)
Theorem add_size_on_scenario :
  (exists a,
     add_position_check (Scenario.globals 2 1 (1.2 * Scenario.initial_atr)) 130
                        (Scenario.strategy_after_entry 128) = Some a /\
     size a == 2000 /\ ~ size a == 0.3 * 2000) /\
  (exists a,
     add_position_check (Scenario.globals 2 1 (1.2 * Scenario.initial_atr)) 130
                        (Scenario.strategy_after_first_add 128) = Some a /\
     size a == 600 /\ ~ size a == 0.15 * 2000).
Proof.
  split; eexists; (split; [vm_compute; reflexivity |]);
    (split; [reflexivity | discriminate]).
Qed.

(** For every approved first add the size is the whole initial size. *)
Lemma first_add_size g current_price strategy a :
  add_count strategy = 0%nat ->
  add_position_check g current_price strategy = Some a ->
  size a == init_size strategy.
Proof.
  intros H0 Ha. apply add_position_check_inv in Ha as (_ & _ & _ & ->).
  rewrite H0. unfold pow. simpl. lra.
Qed.

(** A price that is a new high since entry but not 3% above the entry
    price: the four conditions of the specification hold and no add is
    made. *)
Lemma add_eligibility_counterexample :
  spec_add_conditions 100 Scenario.initial_atr
                      (Scenario.globals 2 1 (1.2 * Scenario.initial_atr)) 102
                      (Scenario.strategy_after_entry 101) = true /\
  add_position_check (Scenario.globals 2 1 (1.2 * Scenario.initial_atr)) 102
                     (Scenario.strategy_after_entry 101) = None.
Proof. split; reflexivity. Qed.

(** [add_position_check] does not read the initial ATR: with the current ATR
    at twice the initial ATR the add is still made. *)
Lemma add_with_elevated_atr :
  lt (2 * Scenario.initial_atr) (1.5 * Scenario.initial_atr) = false /\
  is_Some (add_position_check (Scenario.globals 2 1 (2 * Scenario.initial_atr))
                              130 (Scenario.strategy_after_entry 128)).
Proof. split; [reflexivity | by eexists]. Qed.

(** C3, as the code has it.  [add_position_check] makes an add only if the
    price is more than 3% above the entry price, the current risk is below
    0.7 of the initial risk and the add count is below the maximum; it does
    make the add when these three hold and the current ATR is below 1.5
    times the initial ATR. *)
Theorem add_check_conditions
    (g : Globals) (current_price : Q) (strategy : Strategy) :
  (is_Some (add_position_check g current_price strategy) ->
   entry_price strategy * 1.03 < current_price /\
   current_risk strategy < initial_risk g * 0.7 /\
   (add_count strategy < max_add_times (params g))%nat) /\
  (forall initial_atr : Q,
   entry_price strategy * 1.03 < current_price ->
   current_risk strategy < initial_risk g * 0.7 ->
   (add_count strategy < max_add_times (params g))%nat ->
   atr_current g < 1.5 * initial_atr ->
   is_Some (add_position_check g current_price strategy)).
Proof.
  split.
  - intros [a Ha]. apply add_position_check_inv in Ha as (H1 & H2 & H3 & _).
    apply gt_true in H1. apply lt_true in H2. apply Nat.ltb_lt in H3. done.
  - intros initial_atr H1 H2 H3 _.
    apply gt_true in H1. apply lt_true in H2. apply Nat.ltb_lt in H3.
    rewrite (add_position_check_Some _ _ _ H1 H2 H3). by eexists.
Qed.

Lemma add_check_conditions_witness :
  is_Some (add_position_check
             (Scenario.globals 2 1 (1.2 * Scenario.initial_atr)) 130
             (Scenario.strategy_after_entry 128)) /\
  100 * 1.03 < 130.
Proof.
  assert (H : is_Some (add_position_check
             (Scenario.globals 2 1 (1.2 * Scenario.initial_atr)) 130
             (Scenario.strategy_after_entry 128))).
  { apply (proj2 (add_check_conditions _ _ _) Scenario.initial_atr).
    - reflexivity.
    - reflexivity.
    - simpl. lia.
    - reflexivity. }
  split; [exact H |].
  apply (proj1 (add_check_conditions _ _ _) H).
Defined.

End SizingFacts.

(** ** The risk matrix *)
Module RiskFacts.

Import RiskMonitor PyFacts.
Local Open Scope Q_scope.

Lemma volatility_spike_true (snap : MarketSnapshot) :
  volatility_spike snap = true <-> 1.5 * atr_daily snap < atr_15m snap.
Proof. apply gt_true. Qed.

Lemma crossed_stop_true (pos : Position) (snap : MarketSnapshot) :
  crossed_stop pos snap = true <->
  match direction pos with
  | long => price snap < final_stop pos
  | short => final_stop pos < price snap
  end.
Proof.
  unfold crossed_stop. destruct (direction pos); [apply lt_true | apply gt_true].
Qed.

(** An event is emitted exactly when some row of the matrix yields it. *)
Lemma elem_of_evaluate pos snap p (ev : RiskEvent) :
  ev ∈ evaluate pos snap p <->
  row_reversal p pos snap = Some ev \/ row_liquidity p pos snap = Some ev \/
  row_volatility p pos snap = Some ev \/ row_resistance p pos snap = Some ev \/
  row_overnight p pos snap = Some ev.
Proof.
  unfold evaluate, matrix. rewrite list_elem_of_omap. split.
  - intros (row & Hrow & Hev).
    repeat (apply elem_of_cons in Hrow as [-> | Hrow]; [tauto |]).
    by apply elem_of_nil in Hrow.
  - intros H. repeat destruct H as [H | H];
      (eexists; split; [| exact H]); set_solver.
Qed.

Lemma row_volatility_Some p pos snap ev :
  row_volatility p pos snap = Some ev <->
  volatility_spike snap = true /\
  ev = mkRiskEvent volatility (atr_15m snap) reduce_50.
Proof.
  unfold row_volatility. destruct (volatility_spike snap); split.
  - by intros [= <-].
  - by intros [_ ->].
  - discriminate.
  - by intros [[=] _].
Qed.

(** Only the volatility row yields the kind [volatility] or the action
    [reduce_50]. *)
Lemma other_rows p pos snap ev :
  row_reversal p pos snap = Some ev \/ row_liquidity p pos snap = Some ev \/
  row_resistance p pos snap = Some ev \/ row_overnight p pos snap = Some ev ->
  kind ev <> volatility /\ action ev <> reduce_50.
Proof.
  unfold row_reversal, row_liquidity, row_resistance, row_overnight.
  intros [H | [H | [H | H]]];
    match type of H with (if ?c then _ else _) = _ => destruct c end;
    try discriminate; by injection H as <-.
Qed.

Lemma volatility_event_emitted p pos snap :
  volatility_spike snap = true ->
  mkRiskEvent volatility (atr_15m snap) reduce_50 ∈ evaluate pos snap p.
Proof.
  intros Hv. apply elem_of_evaluate. right; right; left.
  by apply row_volatility_Some.
Qed.

(** C4 (volatility-spike rule).  [evaluate] emits an event of kind
    volatility exactly when the 15-minute ATR exceeds 1.5 times the daily
    ATR; that event, and no other, carries the action reduce-50, and the
    StopCalculator is told to tighten its multiplier exactly then. *)
Theorem volatility_spike_rule
    (pos : Position) (snap : MarketSnapshot) (p : RiskParams) :
  let events := evaluate pos snap p in
  (mkRiskEvent volatility (atr_15m snap) reduce_50 ∈ events <->
   1.5 * atr_daily snap < atr_15m snap) /\
  (forall ev, ev ∈ events ->
     (kind ev = volatility <-> action ev = reduce_50) /\
     (kind ev = volatility -> 1.5 * atr_daily snap < atr_15m snap)) /\
  (tighten_multiplier events = true <-> 1.5 * atr_daily snap < atr_15m snap).
Proof.
  cbv zeta.
  assert (Hin : forall ev, ev ∈ evaluate pos snap p ->
            (kind ev = volatility <-> action ev = reduce_50) /\
            (kind ev = volatility -> volatility_spike snap = true)).
  { intros ev Hev. apply elem_of_evaluate in Hev.
    destruct (row_volatility p pos snap) as [ev'|] eqn:Hrow.
    - apply row_volatility_Some in Hrow as [Hv ->].
      destruct Hev as [H | [H | [[= <-] | H]]]; [| | done | ];
        destruct (other_rows p pos snap ev) as [? ?]; tauto.
    - destruct (other_rows p pos snap ev) as [? ?];
        [destruct Hev as [H | [H | [H | H]]]; [tauto | tauto | done | tauto] |].
      split; [split |]; intros; congruence. }
  split; [|split].
  - rewrite elem_of_evaluate, <- volatility_spike_true. split.
    + intros H.
      destruct (row_volatility p pos snap) as [ev'|] eqn:Hrow.
      * by apply row_volatility_Some in Hrow as [Hv _].
      * destruct (other_rows p pos snap
                    (mkRiskEvent volatility (atr_15m snap) reduce_50))
          as [Hk _]; [|done].
        destruct H as [H | [H | [H | H]]]; [tauto | tauto | done | tauto].
    + intros Hv. apply elem_of_evaluate. by apply volatility_event_emitted.
  - intros ev Hev. destruct (Hin ev Hev) as [H1 H2].
    split; [exact H1 |]. intros Hk. by apply volatility_spike_true, H2.
  - rewrite <- volatility_spike_true.
    unfold tighten_multiplier. rewrite existsb_exists. split.
    + intros (ev & Hev & Hk). apply bool_decide_eq_true in Hk.
      apply list_elem_of_In in Hev. by apply (Hin ev Hev).
    + intros Hv. exists (mkRiskEvent volatility (atr_15m snap) reduce_50).
      split; [| by apply bool_decide_eq_true].
      by apply list_elem_of_In, volatility_event_emitted.
Qed.

Lemma volatility_spike_rule_witness :
  mkRiskEvent volatility 4 reduce_50
    ∈ evaluate Scenario.long_stop_100 (Scenario.snapshot 120 4 2)
               Scenario.risk_params /\
  tighten_multiplier (evaluate Scenario.long_stop_100
                               (Scenario.snapshot 120 4 2)
                               Scenario.risk_params) = true.
Proof.
  destruct (volatility_spike_rule Scenario.long_stop_100
              (Scenario.snapshot 120 4 2) Scenario.risk_params)
    as (Hev & _ & Htight).
  split; [apply Hev | apply Htight]; reflexivity.
Defined.

(** C5 (risk-matrix priority).  When the price has crossed the active stop
    against the direction and the 15-minute ATR exceeds 1.5 times the daily
    ATR in the same cycle, the mandatory action is flatten and not
    reduce-50; the volatility event is still among the events. *)
Theorem reversal_governs_over_volatility
    (pos : Position) (snap : MarketSnapshot) (p : RiskParams)
    (Hreversal : match direction pos with
                 | long => price snap < final_stop pos
                 | short => final_stop pos < price snap
                 end)
    (Hspike : 1.5 * atr_daily snap < atr_15m snap) :
  mandatory_action (evaluate pos snap p) = Some flatten /\
  mandatory_action (evaluate pos snap p) <> Some reduce_50 /\
  mkRiskEvent volatility (atr_15m snap) reduce_50 ∈ evaluate pos snap p.
Proof.
  apply crossed_stop_true in Hreversal.
  assert (Hact : mandatory_action (evaluate pos snap p) = Some flatten).
  { unfold mandatory_action, evaluate, matrix. simpl.
    unfold row_reversal at 1. by rewrite Hreversal. }
  split; [exact Hact | split; [by rewrite Hact |]].
  by apply volatility_event_emitted, volatility_spike_true.
Qed.

Lemma reversal_governs_over_volatility_witness :
  mandatory_action (evaluate Scenario.long_stop_100 (Scenario.snapshot 99 4 2)
                             Scenario.risk_params) = Some flatten /\
  mkRiskEvent volatility 4 reduce_50
    ∈ evaluate Scenario.long_stop_100 (Scenario.snapshot 99 4 2)
               Scenario.risk_params.
Proof.
  destruct (reversal_governs_over_volatility Scenario.long_stop_100
              (Scenario.snapshot 99 4 2) Scenario.risk_params)
    as (Hact & _ & Hev); [reflexivity | reflexivity |].
  split; [exact Hact | exact Hev].
Defined.

End RiskFacts.

(** ** The message history of the WebSocket manager *)
Module WsFacts.

Import WsManager.

Section Handler.

Variable JSON_parse : string -> option Value.
Variable to_property_key : Value -> string.

#[local] Abbreviation onmessage := (onmessage JSON_parse to_property_key).
#[local] Abbreviation run := (run JSON_parse to_property_key).

Lemma updateMarketData_messages now d this :
  messages (updateMarketData to_property_key now d this) = messages this.
Proof.
  unfold updateMarketData.
  destruct (get d "symbol") as [symbol|]; [|done].
  by destruct (truthy symbol).
Qed.

Lemma updateOrderData_messages now d this :
  messages (updateOrderData now d this) = messages this.
Proof.
  unfold updateOrderData.
  destruct (get d "order_id") as [order_id|]; [|done].
  destruct (truthy order_id); [|done].
  by destruct (findIndex _ _).
Qed.

(** What one run of the handler does to [messages]. *)
Lemma onmessage_messages now event_data this :
  messages (onmessage now event_data this) =
  match JSON_parse event_data with
  | Some message =>
      match get message "type", get message "data" with
      | Some ty, Some da =>
          let pushed := messages this ++ [mkEntry now now ty da] in
          if (100 <? length pushed)%nat then shift pushed else pushed
      | _, _ => messages this
      end
  | None => messages this
  end.
Proof.
  unfold WsManager.onmessage.
  destruct (JSON_parse event_data) as [message|]; [|done].
  destruct (get message "type") as [ty|]; [|done].
  destruct (get message "data") as [da|]; [|done].
  cbv zeta.
  destruct (strict_eq ty (JStr "market_data")).
  { by rewrite updateMarketData_messages. }
  destruct (strict_eq ty (JStr "order_update")).
  { by rewrite updateOrderData_messages. }
  done.
Qed.

Lemma onmessage_bounded now event_data this :
  length (messages this) ≤ 100 ->
  length (messages (onmessage now event_data this)) ≤ 100.
Proof.
  intros Hinv. rewrite onmessage_messages.
  destruct (JSON_parse event_data) as [message|]; [|done].
  destruct (get message "type") as [ty|]; [|done].
  destruct (get message "data") as [da|]; [|done].
  cbv zeta.
  destruct (Nat.ltb_spec 100 (length (messages this ++ [mkEntry now now ty da])))
    as [Hgt | Hle]; [|done].
  unfold shift. destruct (messages this) as [|oldest rest]; simpl in *.
  - lia.
  - rewrite length_app. simpl. lia.
Qed.

Lemma run_bounded events this :
  length (messages this) ≤ 100 ->
  length (messages (run events this)) ≤ 100.
Proof.
  revert this. induction events as [|[now event_data] events IH]; intros this Hinv.
  - done.
  - simpl. apply IH. by apply onmessage_bounded.
Qed.

(** C10 (bounded message history).  A run of the [onmessage] handler keeps
    [messages] at no more than 100 entries.  A message that parses to a
    value other than [null] appends exactly one entry, at the end, and when
    that makes 101 the oldest entry, and only it, is removed.  Starting
    from the empty history, the length is at most 100 after every run of
    the handler. *)
Theorem message_history_bounded
    (now : Z) (event_data : string) (this : State) (events : list (Z * string))
    (Hinv : length (messages this) ≤ 100) :
  length (messages (onmessage now event_data this)) ≤ 100 /\
  (forall message ty da,
     JSON_parse event_data = Some message ->
     get message "type" = Some ty -> get message "data" = Some da ->
     messages (onmessage now event_data this) =
       if decide (length (messages this) < 100)
       then messages this ++ [mkEntry now now ty da]
       else tail (messages this) ++ [mkEntry now now ty da]) /\
  length (messages (run events initial)) ≤ 100.
Proof.
  split; [by apply onmessage_bounded | split].
  - intros message ty da Hparse Hty Hda.
    rewrite onmessage_messages, Hparse, Hty, Hda. cbv zeta.
    destruct (Nat.ltb_spec 100 (length (messages this ++ [mkEntry now now ty da])))
      as [Hgt | Hle]; rewrite length_app in *; simpl in *.
    + rewrite decide_False by lia. unfold shift.
      destruct (messages this) as [|oldest rest]; [simpl in *; lia | done].
    + rewrite decide_True by lia. done.
  - apply run_bounded. simpl. lia.
Qed.

End Handler.

Lemma message_history_bounded_witness :
  messages (onmessage Scenario.parse Scenario.key 1700000000000 "" initial) =
    [mkEntry 1700000000000 1700000000000 (JStr "market_data")
             (JObj [("symbol", JStr "600000")])] /\
  length (messages (onmessage Scenario.parse Scenario.key
                              1700000000000 "" initial)) ≤ 100.
Proof.
  destruct (message_history_bounded Scenario.parse Scenario.key
              1700000000000 "" initial [])
    as (Hlen & Happend & _); [simpl; lia |].
  split; [| exact Hlen].
  by rewrite (Happend _ _ _ eq_refl eq_refl eq_refl).
Defined.

End WsFacts.

(** ** More on the stop computations *)
Module ChandelierFacts.

Import Chandelier PyFacts StopFacts.
Local Open Scope Q_scope.

Lemma getitem_None (d : gmap string Q) (key : string) :
  d !! key = None -> getitem d key = Raise KeyError.
Proof. unfold getitem. by intros ->. Qed.

#[local] Instance max2_proper : Proper (Qeq ==> Qeq ==> Qeq) max2.
Proof.
  intros a a' Ha b b' Hb. rewrite !max2_Qmax. by apply Q.max_compat.
Qed.

(** X1.  [update_trailing_stop] returns a stop exactly when the daily and the
    hourly entries are present in both [new_high] and [atr]; when one of
    the four is missing it raises [KeyError], and it raises nothing else. *)
Theorem update_trailing_stop_keys
    (g : Globals) (strategy : Strategy) (new_high : gmap string Q) :
  ((exists final_stop, update_trailing_stop g strategy new_high = Ok final_stop)
   <-> is_Some (new_high !! "daily") /\ is_Some (new_high !! "hourly") /\
       is_Some (atr g !! "daily") /\ is_Some (atr g !! "hourly")) /\
  (update_trailing_stop g strategy new_high = Raise KeyError
   <-> new_high !! "daily" = None \/ new_high !! "hourly" = None \/
       atr g !! "daily" = None \/ atr g !! "hourly" = None) /\
  (forall e, update_trailing_stop g strategy new_high = Raise e -> e = KeyError).
Proof.
  unfold update_trailing_stop, getitem.
  destruct (new_high !! "daily") as [nd|], (atr g !! "daily") as [ad|],
    (new_high !! "hourly") as [nh|], (atr g !! "hourly") as [ah|]; simpl;
    (split; [split | split; [split |]]);
    try (intros [? ?]; discriminate);
    try (intros (H1 & H2 & H3 & H4);
         by first [destruct H1 | destruct H2 | destruct H3 | destruct H4]);
    try (intros _; repeat split; by eexists);
    try (intros _; by eexists);
    try discriminate;
    try (intros [H | [H | [H | H]]]; discriminate);
    try (intros e [= <-]; reflexivity);
    try (intros _; tauto);
    try reflexivity.
Qed.

Lemma update_trailing_stop_keys_witness :
  update_trailing_stop (Scenario.globals 2 1 3)
                       (Scenario.strategy_after_entry 125)
                       (<["daily" := 130]> ∅) = Raise KeyError.
Proof.
  apply (proj1 (proj2 (update_trailing_stop_keys _ _ _))).
  right; left. reflexivity.
Defined.

(** X2.  With all four entries present the stop is never below [last_close *
    0.98], nor below the daily or the hourly stop, and it is one of these
    three values. *)
Theorem stop_floor
    (g : Globals) (strategy : Strategy) (new_high : gmap string Q)
    (nh_d nh_h atr_d atr_h : Q)
    (Hnd : new_high !! "daily" = Some nh_d)
    (Hnh : new_high !! "hourly" = Some nh_h)
    (Had : atr g !! "daily" = Some atr_d)
    (Hah : atr g !! "hourly" = Some atr_h) :
  let daily_stop := nh_d - daily_multiplier (params g) * atr_d in
  let hourly_stop := nh_h - hourly_multiplier (params g) * atr_h in
  exists final_stop,
    update_trailing_stop g strategy new_high = Ok final_stop /\
    last_close strategy * 0.98 <= final_stop /\
    daily_stop <= final_stop /\ hourly_stop <= final_stop /\
    (final_stop = daily_stop \/ final_stop = hourly_stop \/
     final_stop = last_close strategy * 0.98).
Proof.
  cbv zeta.
  rewrite (update_trailing_stop_max _ _ _ _ _ _ _ Hnd Hnh Had Hah).
  eexists. split; [reflexivity |]. unfold candidate.
  set (d := nh_d - _). set (h := nh_h - _). set (c := last_close strategy * 0.98).
  pose proof (max2_ge_l (max2 d h) c). pose proof (max2_ge_r (max2 d h) c).
  pose proof (max2_ge_l d h). pose proof (max2_ge_r d h).
  repeat split; try lra.
  destruct (max2_cases (max2 d h) c) as [[_ ->]|[_ ->]]; [tauto |].
  destruct (max2_cases d h) as [[_ ->]|[_ ->]]; tauto.
Qed.

Lemma stop_floor_witness :
  exists final_stop,
    update_trailing_stop (Scenario.globals 2 1 3)
                         (Scenario.strategy_after_entry 135)
                         (by_timeframe 130 130) = Ok final_stop /\
    135 * 0.98 <= final_stop.
Proof.
  destruct (stop_floor (Scenario.globals 2 1 3)
                       (Scenario.strategy_after_entry 135)
                       (by_timeframe 130 130) 130 130 2 1)
    as (fs & Hfs & Hfloor & _); [reflexivity .. |].
  exists fs. split; [exact Hfs | exact Hfloor].
Defined.

Lemma calculate_dynamic_stop_Ok l22 cur datr l8 hatr m :
  max_iter l8 = Ok m ->
  calculate_dynamic_stop l22 cur datr l8 hatr =
    Ok (max2 (max2 l22 cur - 3 * datr) (m - 2 * hatr)).
Proof. unfold calculate_dynamic_stop. by intros ->. Qed.

(** X3.  [calculate_dynamic_stop] fails, with [ValueError], exactly when the list
    of hourly highs is empty. *)
Theorem dynamic_stop_empty_hours
    (last_22_days_high current_day_high daily_atr hourly_atr : Q)
    (last_8_hours_high : list Q) :
  (calculate_dynamic_stop last_22_days_high current_day_high daily_atr
                          last_8_hours_high hourly_atr = Raise ValueError
   <-> last_8_hours_high = []) /\
  (last_8_hours_high <> [] <->
   exists final_stop,
     calculate_dynamic_stop last_22_days_high current_day_high daily_atr
                            last_8_hours_high hourly_atr = Ok final_stop).
Proof.
  destruct last_8_hours_high as [|h rest].
  - split; split; try done. by intros [? ?].
  - split; split; try done. intros _.
    destruct (max_iter_spec (h :: rest)) as (m & Hm & _); [done |].
    rewrite (calculate_dynamic_stop_Ok _ _ _ _ _ _ Hm). by eexists.
Qed.

Lemma dynamic_stop_empty_hours_witness :
  calculate_dynamic_stop 130 128 4 [] 2 = Raise ValueError.
Proof. by apply (proj1 (dynamic_stop_empty_hours 130 128 4 2 [])). Defined.

(** X4.  The result of [calculate_dynamic_stop] does not depend on the order of
    the hourly highs. *)
Theorem dynamic_stop_order_irrelevant
    (last_22_days_high current_day_high daily_atr hourly_atr : Q)
    (hours hours' : list Q)
    (Hperm : hours ≡ₚ hours') (Hvalid : hours <> []) :
  exists final_stop final_stop',
    calculate_dynamic_stop last_22_days_high current_day_high daily_atr
                           hours hourly_atr = Ok final_stop /\
    calculate_dynamic_stop last_22_days_high current_day_high daily_atr
                           hours' hourly_atr = Ok final_stop' /\
    final_stop == final_stop'.
Proof.
  assert (Hvalid' : hours' <> []).
  { intros ->. by apply Permutation_nil_r in Hperm. }
  destruct (max_iter_spec hours Hvalid) as (m & Hm & Hin & Hall).
  destruct (max_iter_spec hours' Hvalid') as (m' & Hm' & Hin' & Hall').
  rewrite (calculate_dynamic_stop_Ok _ _ _ _ _ _ Hm).
  rewrite (calculate_dynamic_stop_Ok _ _ _ _ _ _ Hm').
  eexists _, _. split; [reflexivity | split; [reflexivity |]].
  assert (E : m == m').
  { rewrite Forall_forall in Hall, Hall'. apply Qle_antisym.
    - apply Hall'. by rewrite <- Hperm.
    - apply Hall. by rewrite Hperm. }
  by rewrite E.
Qed.

Lemma dynamic_stop_order_irrelevant_witness :
  exists final_stop final_stop',
    calculate_dynamic_stop 130 128 4 [120; 125; 124] 2 = Ok final_stop /\
    calculate_dynamic_stop 130 128 4 [125; 124; 120] 2 = Ok final_stop' /\
    final_stop == final_stop'.
Proof.
  apply dynamic_stop_order_irrelevant; [| done].
  change [125; 124; 120] with ([125; 124] ++ [120]).
  apply Permutation_cons_append.
Defined.

(** X5.  With ATRs that are not negative, the stop of [calculate_dynamic_stop] is
    at most the highest high it is given. *)
Theorem dynamic_stop_below_highs
    (last_22_days_high current_day_high daily_atr hourly_atr top : Q)
    (last_8_hours_high : list Q)
    (Hvalid : last_8_hours_high <> [])
    (Hdatr : 0 <= daily_atr) (Hhatr : 0 <= hourly_atr)
    (Htop22 : last_22_days_high <= top) (Htopday : current_day_high <= top)
    (Htophours : Forall (fun h => h <= top) last_8_hours_high) :
  exists final_stop,
    calculate_dynamic_stop last_22_days_high current_day_high daily_atr
                           last_8_hours_high hourly_atr = Ok final_stop /\
    final_stop <= top.
Proof.
  destruct (max_iter_spec _ Hvalid) as (m & Hm & Hin & _).
  rewrite (calculate_dynamic_stop_Ok _ _ _ _ _ _ Hm).
  eexists. split; [reflexivity |].
  rewrite Forall_forall in Htophours. specialize (Htophours m Hin).
  pose proof (max2_lub _ _ _ Htop22 Htopday).
  apply max2_lub; lra.
Qed.

Lemma dynamic_stop_below_highs_witness :
  exists final_stop,
    calculate_dynamic_stop 130 128 4 [120; 125; 124] 2 = Ok final_stop /\
    final_stop <= 130.
Proof.
  apply dynamic_stop_below_highs;
    try done; try (repeat constructor; discriminate).
Defined.

(** X6.  [update_trailing_stop] with the multipliers 3 and 2, given the daily and
    hourly highs and ATRs of [calculate_dynamic_stop], returns the stop of
    [calculate_dynamic_stop] raised to [last_close * 0.98] when it is
    below it. *)
Theorem update_refines_dynamic_stop
    (g : Globals) (strategy : Strategy) (new_high : gmap string Q)
    (last_22_days_high current_day_high daily_atr hourly_atr : Q)
    (last_8_hours_high : list Q) (hourly_high dynamic_stop : Q)
    (Hmd : daily_multiplier (params g) == 3)
    (Hmh : hourly_multiplier (params g) == 2)
    (Hhours : max_iter last_8_hours_high = Ok hourly_high)
    (Hdyn : calculate_dynamic_stop last_22_days_high current_day_high
              daily_atr last_8_hours_high hourly_atr = Ok dynamic_stop)
    (Hnd : new_high !! "daily" = Some (max2 last_22_days_high current_day_high))
    (Hnh : new_high !! "hourly" = Some hourly_high)
    (Had : atr g !! "daily" = Some daily_atr)
    (Hah : atr g !! "hourly" = Some hourly_atr) :
  exists final_stop,
    update_trailing_stop g strategy new_high = Ok final_stop /\
    final_stop == Qmax dynamic_stop (last_close strategy * 0.98).
Proof.
  rewrite (update_trailing_stop_max _ _ _ _ _ _ _ Hnd Hnh Had Hah).
  eexists. split; [reflexivity |].
  rewrite (calculate_dynamic_stop_Ok _ _ _ _ _ _ Hhours) in Hdyn.
  injection Hdyn as <-.
  rewrite max2_Qmax. apply Q.max_compat; [| reflexivity].
  unfold candidate. by rewrite Hmd, Hmh.
Qed.

Lemma update_refines_dynamic_stop_witness :
  exists final_stop,
    update_trailing_stop (Scenario.globals 4 2 3)
                         (Scenario.strategy_after_entry 125)
                         (by_timeframe 130 125) = Ok final_stop /\
    final_stop == 122.5.
Proof.
  destruct (update_refines_dynamic_stop (Scenario.globals 4 2 3)
              (Scenario.strategy_after_entry 125) (by_timeframe 130 125)
              130 128 4 2 [120; 125; 124] 125 121)
    as (fs & Hfs & Heq); try reflexivity.
  exists fs. split; [exact Hfs |]. rewrite Heq. reflexivity.
Defined.

End ChandelierFacts.

(** ** More on position size and adds *)
Module EntryFacts.

Import Chandelier PyFacts SizingFacts.
Local Open Scope Q_scope.











End EntryFacts.

(** ** More on the WebSocket manager *)
Module WsManagerFacts.

Import WsManager WsFacts.

Lemma props_get_set (props : Props) (k k' : string) (v : Value) :
  props_get (props_set props k v) k' =
  if String.eqb k k' then v else props_get props k'.
Proof.
  induction props as [|[k0 w] rest IH]; simpl.
  - by destruct (String.eqb k k').
  - destruct (String.eqb_spec k0 k) as [-> | Hne]; simpl.
    + by destruct (String.eqb k k').
    + rewrite IH. destruct (String.eqb_spec k0 k') as [-> | Hne'];
        destruct (String.eqb_spec k k'); congruence.
Qed.

Lemma props_get_set_eq (props : Props) (k : string) (v : Value) :
  props_get (props_set props k v) k = v.
Proof. by rewrite props_get_set, String.eqb_refl. Qed.

Lemma props_get_set_ne (props : Props) (k k' : string) (v : Value) :
  k <> k' -> props_get (props_set props k v) k' = props_get props k'.
Proof.
  intros Hne. rewrite props_get_set.
  by destruct (String.eqb_spec k k').
Qed.

Lemma props_get_notin (props : Props) (k : string) :
  k ∉ props.*1 -> props_get props k = JUndefined.
Proof.
  induction props as [|[k0 w] rest IH]; simpl; [done |].
  rewrite not_elem_of_cons. intros [Hne Hrest].
  destruct (String.eqb_spec k0 k); [congruence | by apply IH].
Qed.

Lemma props_get_elem (props : Props) (k : string) (v : Value) :
  unique_keys props -> (k, v) ∈ props -> props_get props k = v.
Proof.
  unfold unique_keys. induction props as [|[k0 w] rest IH]; simpl.
  - intros _ H. by apply elem_of_nil in H.
  - rewrite NoDup_cons. intros [Hk0 Hnd] Hin.
    apply elem_of_cons in Hin as [[= -> ->] | Hin].
    + by rewrite String.eqb_refl.
    + destruct (String.eqb_spec k0 k) as [-> | _]; [| by apply IH].
      exfalso. apply Hk0. apply list_elem_of_fmap. by exists (k, v).
Qed.

Lemma props_get_spread_notin (b a : Props) (k : string) :
  k ∉ b.*1 -> props_get (spread a b) k = props_get a k.
Proof.
  unfold spread. revert a. induction b as [|[k0 v0] b IH]; intros a; simpl.
  - done.
  - rewrite not_elem_of_cons. intros [Hne Hb].
    rewrite IH by done. by apply props_get_set_ne.
Qed.

Lemma props_get_spread_elem (b a : Props) (k : string) (v : Value) :
  unique_keys b -> (k, v) ∈ b -> props_get (spread a b) k = v.
Proof.
  unfold unique_keys, spread. revert a.
  induction b as [|[k0 v0] b IH]; intros a; simpl.
  - intros _ H. by apply elem_of_nil in H.
  - rewrite NoDup_cons. intros [Hk0 Hnd] Hin.
    apply elem_of_cons in Hin as [[= -> ->] | Hin].
    + pose proof (props_get_spread_notin b (props_set a k0 v0) k0 Hk0) as E.
      unfold spread in E. rewrite E. apply props_get_set_eq.
    + by apply IH.
Qed.

(** The object [{...old, ...props, lastUpdate: new Date()}]. *)
Lemma merged_with_spread (now : Z) (props old : Props) :
  unique_keys props ->
  merged_with now props old
    (props_set (spread old props) "lastUpdate" (JDate now)).
Proof.
  intros Hu. split; [apply props_get_set_eq | split].
  - intros k v Hin Hne. rewrite props_get_set_ne by done.
    by apply props_get_spread_elem.
  - intros k Hk Hne. rewrite props_get_set_ne by done.
    by apply props_get_spread_notin.
Qed.

(** The object [{...props, lastUpdate: new Date()}]. *)
Lemma merged_with_fresh (now : Z) (props : Props) :
  unique_keys props ->
  merged_with now props [] (props_set props "lastUpdate" (JDate now)).
Proof.
  intros Hu. split; [apply props_get_set_eq | split].
  - intros k v Hin Hne. rewrite props_get_set_ne by done.
    by apply props_get_elem.
  - intros k Hk Hne. rewrite props_get_set_ne by done.
    by apply props_get_notin.
Qed.

Lemma slice_last_app {A : Type} (n : nat) (l r : list A) :
  slice_last n (slice_last n l ++ r) = slice_last n (l ++ r).
Proof.
  unfold slice_last. rewrite !length_app, length_drop.
  destruct (decide (length l ≤ n)) as [Hle | Hgt].
  - replace (length l - n) with 0 by lia. simpl.
    by replace (length l - 0) with (length l) by lia.
  - replace (length l - (length l - n) + length r - n) with (length r) by lia.
    replace (length l + length r - n) with ((length l - n) + length r) by lia.
    rewrite <- drop_drop. f_equal. rewrite drop_app_le by lia. done.
Qed.

Lemma strict_eq_JStr (v : Value) (s : string) :
  strict_eq v (JStr s) = true <-> v = JStr s.
Proof.
  destruct v; simpl; try (split; [discriminate | done]).
  rewrite String.eqb_eq. split; [by intros -> | by intros [= ->]].
Qed.

Section Handler.

Variable JSON_parse : string -> option Value.
Variable to_property_key : Value -> string.

#[local] Abbreviation onmessage := (onmessage JSON_parse to_property_key).
#[local] Abbreviation run := (run JSON_parse to_property_key).
#[local] Abbreviation entry_of := (entry_of JSON_parse).

Lemma onmessage_slice now event_data this :
  length (messages this) ≤ 100 ->
  messages (onmessage now event_data this) =
  slice_last 100 (messages this ++ option_list (entry_of (now, event_data))).
Proof.
  intros Hinv. rewrite (onmessage_messages JSON_parse to_property_key).
  unfold WsManager.entry_of, slice_last. simpl.
  destruct (JSON_parse event_data) as [message|]; simpl.
  2: { rewrite app_nil_r. by replace (length (messages this) - 100) with 0 by lia. }
  destruct (get message "type") as [ty|]; simpl.
  2: { rewrite app_nil_r. by replace (length (messages this) - 100) with 0 by lia. }
  destruct (get message "data") as [da|]; simpl.
  2: { rewrite app_nil_r. by replace (length (messages this) - 100) with 0 by lia. }
  rewrite length_app. simpl.
  destruct (Nat.ltb_spec 100 (length (messages this) + 1)) as [Hgt | Hle].
  - by replace (length (messages this) + 1 - 100) with 1 by lia.
  - by replace (length (messages this) + 1 - 100) with 0 by lia.
Qed.

Lemma run_slice events this :
  length (messages this) ≤ 100 ->
  messages (run events this) =
  slice_last 100 (messages this ++ omap entry_of events).
Proof.
  revert this. induction events as [|[now event_data] events IH]; intros this Hinv.
  - simpl. rewrite app_nil_r. unfold slice_last.
    by replace (length (messages this) - 100) with 0 by lia.
  - change (run ((now, event_data) :: events) this)
      with (run events (onmessage now event_data this)).
    rewrite IH by (by apply onmessage_bounded).
    rewrite onmessage_slice by done. rewrite slice_last_app.
    rewrite <- app_assoc. f_equal. f_equal. simpl.
    by destruct (entry_of (now, event_data)).
Qed.

(** X11.  Starting from the empty history, [messages] holds, in arrival order, the
    entries of the last 100 events that pushed one (all of them while there
    are fewer): nothing but the oldest entries is ever dropped. *)
Theorem history_is_last_100 (events : list (Z * string)) :
  messages (run events initial) = slice_last 100 (omap entry_of events).
Proof. rewrite run_slice by (simpl; lia). done. Qed.

Lemma onmessage_unfold now event_data this e :
  entry_of (now, event_data) = Some e ->
  exists kept,
    let pushed := mkState kept (marketData this) (orderUpdates this) in
    onmessage now event_data this =
      if strict_eq (type e) (JStr "market_data")
      then updateMarketData to_property_key now (data e) pushed
      else if strict_eq (type e) (JStr "order_update")
           then updateOrderData now (data e) pushed
           else pushed.
Proof.
  unfold WsManager.entry_of, WsManager.onmessage. simpl.
  destruct (JSON_parse event_data) as [message|]; [| done].
  destruct (get message "type") as [ty|]; [| done].
  destruct (get message "data") as [da|]; [| done].
  intros [= <-]. simpl. by eexists.
Qed.

Lemma updateMarketData_orderUpdates now d this :
  orderUpdates (updateMarketData to_property_key now d this)
  = orderUpdates this.
Proof.
  unfold updateMarketData.
  destruct (get d "symbol") as [symbol|]; [| done].
  by destruct (truthy symbol).
Qed.

Lemma updateOrderData_marketData now d this :
  marketData (updateOrderData now d this) = marketData this.
Proof.
  unfold updateOrderData.
  destruct (get d "order_id") as [order_id|]; [| done].
  destruct (truthy order_id); [| done].
  by destruct (findIndex _ _).
Qed.

(** X12.  An event that pushes no entry (its text does not parse, or parses to
    [null]) leaves the whole state as it is.  Otherwise only a message of
    type ["market_data"] can change [marketData], and only one of type
    ["order_update"] can change [orderUpdates]. *)
Theorem dispatch_by_type (now : Z) (event_data : string) (this : State) :
  (entry_of (now, event_data) = None ->
   onmessage now event_data this = this) /\
  (forall e, entry_of (now, event_data) = Some e ->
     (type e <> JStr "market_data" ->
      marketData (onmessage now event_data this) = marketData this) /\
     (type e <> JStr "order_update" ->
      orderUpdates (onmessage now event_data this) = orderUpdates this)).
Proof.
  split.
  - unfold WsManager.entry_of, WsManager.onmessage. simpl.
    destruct (JSON_parse event_data) as [message|]; [| done].
    destruct (get message "type") as [ty|]; [| done].
    destruct (get message "data") as [da|]; [| done]. done.
  - intros e He.
    destruct (onmessage_unfold now event_data this e He) as [kept ->].
    cbv zeta. split; intros Hty.
    + destruct (strict_eq (type e) (JStr "market_data")) eqn:E1.
      { by apply strict_eq_JStr in E1. }
      destruct (strict_eq (type e) (JStr "order_update")); [| done].
      by rewrite updateOrderData_marketData.
    + destruct (strict_eq (type e) (JStr "market_data")) eqn:E1.
      { by rewrite updateMarketData_orderUpdates. }
      destruct (strict_eq (type e) (JStr "order_update")) eqn:E2; [| done].
      by apply strict_eq_JStr in E2.
Qed.

End Handler.

Lemma dispatch_by_type_witness :
  orderUpdates (onmessage Scenario.parse Scenario.key 1 "" initial) = [].
Proof.
  apply (proj2 (dispatch_by_type Scenario.parse Scenario.key 1 "" initial)
               _ eq_refl).
  discriminate.
Defined.

Lemma strict_eq_sym (a b : Value) : strict_eq a b = strict_eq b a.
Proof.
  destruct a, b; simpl; try done.
  - by destruct b0, b.
  - destruct (Qeq_bool q q0) eqn:E, (Qeq_bool q0 q) eqn:E'; try done.
    + apply Qeq_bool_iff in E. symmetry in E. apply Qeq_bool_iff in E.
      congruence.
    + apply Qeq_bool_iff in E'. symmetry in E'. apply Qeq_bool_iff in E'.
      congruence.
  - apply String.eqb_sym.
Qed.

Lemma strict_eq_trans (a b c : Value) :
  strict_eq a b = true -> strict_eq b c = true -> strict_eq a c = true.
Proof.
  destruct a, b; simpl; try discriminate; destruct c; simpl; try done.
  - destruct b0, b, b1; done.
  - rewrite !Qeq_bool_iff. intros -> ->. reflexivity.
  - rewrite !String.eqb_eq. congruence.
Qed.

(** Two values equal under [===] compare alike with any third value. *)
Lemma strict_eq_congr (a b c : Value) :
  strict_eq a b = true -> strict_eq c a = strict_eq c b.
Proof.
  intros Hab. destruct (strict_eq c a) eqn:E1, (strict_eq c b) eqn:E2; try done.
  - rewrite (strict_eq_trans c a b E1 Hab) in E2. discriminate.
  - rewrite strict_eq_sym in Hab.
    rewrite (strict_eq_trans c b a E2 Hab) in E1. discriminate.
Qed.

Lemma findIndex_Some (orders : list Props) (order_id : Value) (i : nat) :
  findIndex orders order_id = Some i ->
  exists o, orders !! i = Some o /\
            strict_eq (props_get o "order_id") order_id = true.
Proof.
  revert i. induction orders as [|o rest IH]; intros i; simpl; [done |].
  destruct (strict_eq (props_get o "order_id") order_id) eqn:E.
  - intros [= <-]. by exists o.
  - destruct (findIndex rest order_id) as [j|]; simpl; [| done].
    intros [= <-]. by apply IH.
Qed.

Lemma findIndex_None (orders : list Props) (order_id : Value) :
  findIndex orders order_id = None ->
  forall i o, orders !! i = Some o ->
              strict_eq (props_get o "order_id") order_id = false.
Proof.
  induction orders as [|o rest IH]; simpl; [done |].
  destruct (strict_eq (props_get o "order_id") order_id) eqn:E; [done |].
  destruct (findIndex rest order_id) as [j|] eqn:F; simpl; [done |].
  intros _ [|i] o'; simpl; [by intros [= <-] | by apply IH].
Qed.

Lemma truthy_in_keys (props : Props) (k : string) :
  truthy (props_get props k) = true -> k ∈ props.*1.
Proof.
  intros Ht. destruct (decide (k ∈ props.*1)) as [Hin | Hout]; [done |].
  by rewrite (props_get_notin _ _ Hout) in Ht.
Qed.

Lemma elem_of_keys (props : Props) (k : string) :
  k ∈ props.*1 -> (k, props_get props k) ∈ props.
Proof.
  induction props as [|[k0 w] rest IH]; simpl.
  - intros H. by apply elem_of_nil in H.
  - destruct (String.eqb_spec k0 k) as [-> | Hne].
    + intros _. apply list_elem_of_here.
    + rewrite elem_of_cons. intros [E | Hin]; [congruence |].
      by apply list_elem_of_further, IH.
Qed.

(** A merge keeps the truthy [order_id] of the object merged in. *)
Lemma merged_with_order_id now props old new :
  merged_with now props old new ->
  truthy (props_get props "order_id") = true ->
  props_get new "order_id" = props_get props "order_id".
Proof.
  intros (_ & Hin & _) Ht. apply Hin; [| done].
  by apply elem_of_keys, truthy_in_keys.
Qed.

Section Updates.

Variable JSON_parse : string -> option Value.
Variable to_property_key : Value -> string.

#[local] Abbreviation updateMarketData := (updateMarketData to_property_key).
#[local] Abbreviation onmessage := (onmessage JSON_parse to_property_key).
#[local] Abbreviation run := (run JSON_parse to_property_key).

(** X13.  [updateMarketData] on an object with a truthy [symbol] (whose key is
    not ["__proto__"], which an assignment does not store as a property):
    the entry under that key becomes the old entry overwritten by the
    fields of the data, with [lastUpdate] set from the clock; the entries
    of all other keys, the messages and the orders are untouched. *)
Theorem market_data_merge
    (now : Z) (props : Props) (this : State)
    (Hkeys : unique_keys props)
    (Hsymbol : truthy (props_get props "symbol") = true)
    (Hproto : to_property_key (props_get props "symbol") <> "__proto__") :
  let key := to_property_key (props_get props "symbol") in
  let this' := updateMarketData now (JObj props) this in
  (exists entry,
     marketData this' !! key = Some entry /\
     merged_with now props (default [] (marketData this !! key)) entry) /\
  (forall key', key' <> key ->
     marketData this' !! key' = marketData this !! key') /\
  messages this' = messages this /\
  orderUpdates this' = orderUpdates this.
Proof.
  cbv zeta. unfold WsManager.updateMarketData. simpl. rewrite Hsymbol. simpl.
  split; [| split; [| done]].
  - eexists. split; [apply lookup_insert_eq |].
    by apply merged_with_spread.
  - intros key' Hne. by apply lookup_insert_ne.
Qed.

(** X15.  [updateOrderData] on an object with a truthy [order_id] is an upsert.
    When no stored order has that id the merged object is appended; when
    one has, the list keeps its length, the first such order is replaced by
    itself overwritten with the fields of the data, and every other order
    stays as it is.  [lastUpdate] is set from the clock in both cases. *)
Theorem order_upsert
    (now : Z) (props : Props) (this : State)
    (Hkeys : unique_keys props)
    (Hid : truthy (props_get props "order_id") = true) :
  let order_id := props_get props "order_id" in
  let orders := orderUpdates this in
  let orders' := orderUpdates (updateOrderData now (JObj props) this) in
  ((forall i o, orders !! i = Some o ->
      strict_eq (props_get o "order_id") order_id = false) ->
   exists new, orders' = orders ++ [new] /\ merged_with now props [] new) /\
  (forall i o, orders !! i = Some o ->
     strict_eq (props_get o "order_id") order_id = true ->
   length orders' = length orders /\
   exists first old new,
     first ≤ i /\ orders !! first = Some old /\
     strict_eq (props_get old "order_id") order_id = true /\
     orders' !! first = Some new /\ merged_with now props old new /\
     forall j, j <> first -> orders' !! j = orders !! j).
Proof.
  cbv zeta. unfold updateOrderData. simpl. rewrite Hid.
  split.
  - intros Hnone.
    destruct (findIndex (orderUpdates this) (props_get props "order_id"))
      as [i|] eqn:F.
    + apply findIndex_Some in F as (o & Ho & Heq).
      rewrite (Hnone i o Ho) in Heq. discriminate.
    + simpl. eexists. split; [reflexivity |]. by apply merged_with_fresh.
  - intros i o Ho Heq.
    destruct (findIndex (orderUpdates this) (props_get props "order_id"))
      as [first|] eqn:F.
    2: { rewrite (findIndex_None _ _ F i o Ho) in Heq. discriminate. }
    pose proof F as F'. apply findIndex_Some in F' as (old & Hold & Holdeq).
    simpl. split; [apply length_insert |].
    exists first, old. eexists. split; [| split; [exact Hold | split; [exact Holdeq |]]].
    + clear Hold Holdeq. revert first i o Ho Heq F.
      induction (orderUpdates this) as [|o0 rest IH]; intros first i o Ho Heq;
        simpl; [done |].
      destruct (strict_eq (props_get o0 "order_id") (props_get props "order_id"))
        eqn:E0.
      * intros [= <-]. lia.
      * destruct i as [|i]; simpl in Ho.
        { injection Ho as <-. congruence. }
        destruct (findIndex rest (props_get props "order_id")) as [f|] eqn:Ff;
          simpl; [| done].
        intros [= <-]. specialize (IH f i o Ho Heq eq_refl). lia.
    + unfold Props in *. rewrite Hold. simpl. split; [| split].
      * apply list_lookup_insert_eq. by eapply lookup_lt_Some.
      * by apply merged_with_spread.
      * intros j Hj. by apply list_lookup_insert_ne.
Qed.

Lemma updateOrderData_distinct now d this :
  (forall props, d = JObj props -> unique_keys props) ->
  distinct_ids (orderUpdates this) ->
  distinct_ids (orderUpdates (updateOrderData now d this)).
Proof.
  intros Hwf Hdist. unfold updateOrderData.
  destruct (get d "order_id") as [order_id|] eqn:G; [| done].
  destruct (truthy order_id) eqn:T; [| done].
  destruct d as [| | | | | | |props]; simpl in G; try discriminate;
    injection G as <-; try discriminate.
  specialize (Hwf props eq_refl).
  destruct (findIndex (orderUpdates this) (props_get props "order_id"))
    as [first|] eqn:F; simpl.
  - pose proof F as F'. apply findIndex_Some in F' as (old & Hold & Holdeq).
    unfold Props in *. rewrite Hold. simpl.
    pose proof (merged_with_order_id now props old _
                  (merged_with_spread now props old Hwf) T) as Hnew.
    set (new := props_set (spread old props) "lastUpdate" (JDate now)) in *.
    assert (Hsame : strict_eq (props_get old "order_id")
                              (props_get new "order_id") = true)
      by (by rewrite Hnew).
    intros i j oi oj Hij Hi Hj.
    destruct (decide (i = first)) as [-> | Hi'];
      destruct (decide (j = first)) as [-> | Hj']; [done | | |].
    + rewrite list_lookup_insert_eq in Hi by (by eapply lookup_lt_Some).
      rewrite list_lookup_insert_ne in Hj by done.
      injection Hi as <-.
      rewrite strict_eq_sym, <- (strict_eq_congr _ _ _ Hsame), strict_eq_sym.
      by apply (Hdist first j old oj).
    + rewrite list_lookup_insert_ne in Hi by done.
      rewrite list_lookup_insert_eq in Hj by (by eapply lookup_lt_Some).
      injection Hj as <-.
      rewrite <- (strict_eq_congr _ _ _ Hsame).
      by apply (Hdist i first oi old).
    + rewrite list_lookup_insert_ne in Hi by done.
      rewrite list_lookup_insert_ne in Hj by done.
      by apply (Hdist i j oi oj).
  - pose proof (findIndex_None _ _ F) as Hnone.
    pose proof (merged_with_order_id now props [] _
                  (merged_with_fresh now props Hwf) T) as Hnew.
    set (new := props_set props "lastUpdate" (JDate now)) in *.
    intros i j oi oj Hij Hi Hj.
    apply lookup_app_Some in Hi as [Hi | [Hil Hi]];
      apply lookup_app_Some in Hj as [Hj | [Hjl Hj]].
    + by apply (Hdist i j oi oj).
    + apply list_lookup_singleton_Some in Hj as [_ <-].
      rewrite Hnew. by apply (Hnone i).
    + apply list_lookup_singleton_Some in Hi as [_ <-].
      rewrite Hnew, strict_eq_sym. by apply (Hnone j).
    + apply list_lookup_singleton_Some in Hi as [Hi0 _].
      apply list_lookup_singleton_Some in Hj as [Hj0 _]. lia.
Qed.

Lemma onmessage_distinct now event_data this :
  (forall text message props,
     JSON_parse text = Some message ->
     get message "data" = Some (JObj props) -> unique_keys props) ->
  distinct_ids (orderUpdates this) ->
  distinct_ids (orderUpdates (onmessage now event_data this)).
Proof.
  intros Hparse Hdist. unfold WsManager.onmessage.
  destruct (JSON_parse event_data) as [message|] eqn:P; [| done].
  destruct (get message "type") as [ty|]; [| done].
  destruct (get message "data") as [da|] eqn:D; [| done].
  cbv zeta.
  destruct (strict_eq ty (JStr "market_data")).
  { by rewrite updateMarketData_orderUpdates. }
  destruct (strict_eq ty (JStr "order_update")); [| done].
  apply updateOrderData_distinct; [| done].
  intros props ->. by apply (Hparse event_data message props).
Qed.

(** X16.  When the parser builds objects with each key once, no run of the
    handler from the initial state leaves two orders with the same
    [order_id] in [orderUpdates]. *)
Theorem order_ids_stay_distinct
    (events : list (Z * string))
    (Hparse : forall text message props,
       JSON_parse text = Some message ->
       get message "data" = Some (JObj props) -> unique_keys props) :
  distinct_ids (orderUpdates (run events initial)).
Proof.
  assert (Hgen : forall this, distinct_ids (orderUpdates this) ->
                              distinct_ids (orderUpdates (run events this))).
  { induction events as [|[now event_data] events IH]; intros this Hd;
      [done |].
    simpl. apply IH. by apply onmessage_distinct. }
  apply Hgen. intros i j oi oj _ Hi. done.
Qed.

(** X14.  A message of type ["market_data"] whose data is [null], has no
    [symbol], or has a falsy one (empty text, zero, [false], [null]) is
    recorded in [messages] and changes nothing else. *)
Theorem market_data_without_symbol
    (now : Z) (event_data : string) (this : State) (e : Entry)
    (Hentry : entry_of JSON_parse (now, event_data) = Some e)
    (Htype : type e = JStr "market_data")
    (Hsymbol : forall symbol, get (data e) "symbol" = Some symbol ->
                              truthy symbol = false) :
  last (messages (onmessage now event_data this)) = Some e /\
  marketData (onmessage now event_data this) = marketData this /\
  orderUpdates (onmessage now event_data this) = orderUpdates this.
Proof.
  unfold WsManager.entry_of in Hentry. unfold WsManager.onmessage.
  simpl in Hentry.
  destruct (JSON_parse event_data) as [message|]; [| done].
  destruct (get message "type") as [ty|]; [| done].
  destruct (get message "data") as [da|]; [| done].
  injection Hentry as <-. simpl in *. subst ty. simpl.
  unfold WsManager.updateMarketData.
  assert (Hlast : last (if (100 <? length (messages this ++ [mkEntry now now (JStr "market_data") da]))%nat
                        then shift (messages this ++ [mkEntry now now (JStr "market_data") da])
                        else messages this ++ [mkEntry now now (JStr "market_data") da])
                  = Some (mkEntry now now (JStr "market_data") da)).
  { destruct (Nat.ltb_spec 100 (length (messages this ++ [mkEntry now now (JStr "market_data") da])))
      as [Hgt | Hle]; [| apply last_snoc].
    unfold shift. destruct (messages this) as [|m0 rest]; simpl in *; [lia |].
    apply last_snoc. }
  destruct (get da "symbol") as [symbol|]; [| done].
  by rewrite (Hsymbol symbol eq_refl).
Qed.

End Updates.

(** Decides [unique_keys] on a concrete object. *)
Ltac solve_unique_keys :=
  unfold unique_keys; simpl; apply (bool_decide_unpack _); vm_compute; exact I.

Lemma market_data_merge_witness :
  exists entry,
    marketData (updateMarketData Scenario.key 5
                  (JObj [("symbol", JStr "600000"); ("price", JNum 10)])
                  initial) !! "600000" = Some entry /\
    props_get entry "price" = JNum 10 /\
    props_get entry "lastUpdate" = JDate 5.
Proof.
  destruct (market_data_merge Scenario.key 5
              [("symbol", JStr "600000"); ("price", JNum 10)] initial)
    as ((entry & Hentry & Hnow & Hfields & _) & _).
  - solve_unique_keys.
  - reflexivity.
  - discriminate.
  - exists entry. split; [exact Hentry | split; [| exact Hnow]].
    apply Hfields; [set_solver | discriminate].
Defined.

Lemma order_upsert_witness :
  exists new,
    orderUpdates (updateOrderData 5
                    (JObj [("order_id", JStr "A1"); ("status", JStr "FILLED")])
                    initial) = [new] /\
    props_get new "status" = JStr "FILLED".
Proof.
  destruct (proj1 (order_upsert 5
              [("order_id", JStr "A1"); ("status", JStr "FILLED")] initial
              ltac:(solve_unique_keys)
              eq_refl))
    as (new & Hnew & _ & Hfields & _).
  - intros i o Hi. done.
  - exists new. split; [exact Hnew |].
    apply Hfields; [set_solver | discriminate].
Defined.

Lemma order_ids_stay_distinct_witness :
  distinct_ids
    (orderUpdates (run Scenario.parse_order Scenario.key
                       [(1%Z, "A1"); (2%Z, "A2"); (3%Z, "A1")] initial)).
Proof.
  apply order_ids_stay_distinct.
  intros text message props [= <-] [= <-].
  solve_unique_keys.
Defined.

Lemma market_data_without_symbol_witness :
  marketData (onmessage
                (fun _ => Some (JObj [("type", JStr "market_data");
                                      ("data", JNull)]))
                Scenario.key 7 "" initial) = ∅.
Proof.
  eapply (market_data_without_symbol _ Scenario.key 7 "" initial).
  - reflexivity.
  - reflexivity.
  - simpl. discriminate.
Defined.

End WsManagerFacts.

(** ** The dashboard's message list *)
Module DashboardFacts.

Import WsManager WsFacts Dashboard.

Lemma last_slice_last {A : Type} (n : nat) (l : list A) (x : A) :
  0 < n -> last l = Some x -> last (slice_last n l) = Some x.
Proof.
  intros Hn. unfold slice_last. rewrite !last_lookup, length_drop, lookup_drop.
  intros Hl. pose proof (lookup_lt_Some _ _ _ Hl) as Hlt.
  rewrite <- Hl. f_equal. lia.
Qed.

Lemma onmessage_last parse key now event_data this e :
  entry_of parse (now, event_data) = Some e ->
  last (messages (onmessage parse key now event_data this)) = Some e.
Proof.
  rewrite onmessage_messages. unfold entry_of. simpl.
  destruct (parse event_data) as [message|]; [| done].
  destruct (get message "type") as [ty|]; [| done].
  destruct (get message "data") as [da|]; [| done].
  intros [= <-]. cbv zeta.
  destruct (Nat.ltb_spec 100 (length (messages this ++ [mkEntry now now ty da])))
    as [Hgt | Hle]; [| apply last_snoc].
  unfold shift. destruct (messages this) as [|m0 rest]; simpl in *; [lia |].
  apply last_snoc.
Qed.

(** X17.  [latestMessages] shows the last ten messages, newest first: entry [i] of
    the result is entry [length - 1 - i] of [wsManager.messages]; the result
    has [min 10 length] entries, none when [window.wsManager] is
    undefined. *)
Theorem latest_messages_newest_first (wsManager : option State) :
  let history := match wsManager with Some w => messages w | None => [] end in
  length (latestMessages wsManager) = min 10 (length history) /\
  (forall i, i < length (latestMessages wsManager) ->
     latestMessages wsManager !! i = history !! (length history - 1 - i)).
Proof.
  cbv zeta. unfold latestMessages, slice_last.
  set (history := match wsManager with Some w => messages w | None => [] end).
  rewrite length_reverse, length_drop. split; [lia |].
  intros i Hi. rewrite reverse_lookup by (rewrite length_drop; lia).
  rewrite lookup_drop, length_drop. f_equal. lia.
Qed.

Lemma latest_messages_newest_first_witness :
  latestMessages (Some (run Scenario.parse Scenario.key
                            [(1%Z, ""); (2%Z, "")] initial)) !! 0
  = Some (mkEntry 2 2 (JStr "market_data") (JObj [("symbol", JStr "600000")])).
Proof.
  rewrite (proj2 (latest_messages_newest_first _)) by (simpl; lia).
  reflexivity.
Defined.

(** X18.  After the handler has pushed an entry, that entry is the first one that
    [latestMessages] shows. *)
Theorem newest_message_on_top
    (JSON_parse : string -> option Value) (to_property_key : Value -> string)
    (now : Z) (event_data : string) (this : State) (e : Entry)
    (Hentry : entry_of JSON_parse (now, event_data) = Some e) :
  head (latestMessages
          (Some (onmessage JSON_parse to_property_key now event_data this)))
  = Some e.
Proof.
  unfold latestMessages. rewrite head_reverse.
  apply last_slice_last; [lia |]. by apply onmessage_last.
Qed.

Lemma newest_message_on_top_witness :
  head (latestMessages
          (Some (onmessage Scenario.parse Scenario.key 9 "" initial)))
  = Some (mkEntry 9 9 (JStr "market_data") (JObj [("symbol", JStr "600000")])).
Proof. by apply newest_message_on_top. Defined.

End DashboardFacts.

(** ** The price histories of the real-time monitor *)
Module RealTimeMonitorFacts.

Import RealTimeMonitor.

Section Handler.

Variable to_property_key : WsManager.Value -> string.
Variable object_keys : gmap string WsManager.Props -> list string.

#[local] Abbreviation handle :=
  (handleMarketDataUpdate to_property_key object_keys).
#[local] Abbreviation handle_all := (handle_all to_property_key object_keys).

Lemma handle_maxDataPoints now detail ws this :
  maxDataPoints (handle now detail ws this) = maxDataPoints this.
Proof.
  unfold handleMarketDataUpdate. simpl.
  destruct (WsManager.get detail "symbol") as [symbol|]; [| done].
  destruct (WsManager.get detail "price") as [price|]; [| done].
  destruct (WsManager.truthy symbol && WsManager.truthy price); [| done].
  destruct (priceHistory this !! to_property_key symbol); [done |].
  by destruct (bool_decide _).
Qed.

Lemma push_shift_bounded (n : nat) (h : list Point) (pt : Point) :
  length h ≤ n ->
  length (if (n <? length (h ++ [pt]))%nat
          then WsManager.shift (h ++ [pt]) else h ++ [pt]) ≤ n.
Proof.
  intros Hh. destruct (Nat.ltb_spec n (length (h ++ [pt]))) as [Hgt | Hle];
    [| done].
  unfold WsManager.shift. destruct h as [|p0 rest]; simpl in *; [lia |].
  rewrite length_app. simpl. lia.
Qed.

Lemma handle_bounded now detail ws this :
  bounded this -> bounded (handle now detail ws this).
Proof.
  intros Hb. unfold bounded. rewrite handle_maxDataPoints.
  unfold handleMarketDataUpdate. simpl.
  destruct (WsManager.get detail "symbol") as [symbol|]; [| exact Hb].
  destruct (WsManager.get detail "price") as [price|]; [| exact Hb].
  destruct (WsManager.truthy symbol && WsManager.truthy price); [| exact Hb].
  set (key := to_property_key symbol).
  assert (Hstep : forall h0, length h0 ≤ maxDataPoints this ->
    forall k h,
      <[key := if (maxDataPoints this <? length (h0 ++ [mkPoint now price]))%nat
               then WsManager.shift (h0 ++ [mkPoint now price])
               else h0 ++ [mkPoint now price]]> (priceHistory this) !! k = Some h ->
      length h ≤ maxDataPoints this).
  { intros h0 Hh0 k h. destruct (decide (k = key)) as [-> | Hne].
    - rewrite lookup_insert_eq. intros [= <-]. by apply push_shift_bounded.
    - rewrite lookup_insert_ne by done. apply Hb. }
  destruct (priceHistory this !! key) as [h0|] eqn:L.
  - intros k h Hk. apply (Hstep h0 (Hb key h0 L) k h). exact Hk.
  - destruct (bool_decide (key ∈ inherited_keys)); [exact Hb |].
    intros k h Hk. apply (Hstep [] ltac:(simpl; lia) k h). exact Hk.
Qed.

(** X19.  No price history ever holds more than [maxDataPoints] points: the
    handler keeps the bound, and from the component's initial data every
    history has at most 100 points after any sequence of events. *)
Theorem price_history_bounded
    (now : Z) (detail : WsManager.Value) (ws : option WsManager.State)
    (this : State)
    (events : list (Z * WsManager.Value * option WsManager.State))
    (Hinv : bounded this) :
  bounded (handle now detail ws this) /\
  maxDataPoints (handle now detail ws this) = maxDataPoints this /\
  (forall key h, priceHistory (handle_all events initial) !! key = Some h ->
                 length h ≤ 100).
Proof.
  split; [by apply handle_bounded | split; [apply handle_maxDataPoints |]].
  assert (Hgen : forall st, bounded st ->
            bounded (handle_all events st) /\
            maxDataPoints (handle_all events st) = maxDataPoints st).
  { clear. induction events as [|[[now detail] ws] events IH]; intros st Hst;
      [done |].
    simpl. destruct (IH (handle now detail ws st)) as [Hb Hm].
    - by apply handle_bounded.
    - split; [exact Hb |]. rewrite Hm. apply handle_maxDataPoints. }
  destruct (Hgen initial) as [Hb Hm].
  { intros key h Hh. simpl in Hh. rewrite lookup_empty in Hh. discriminate. }
  intros key h Hh. specialize (Hb key h Hh). by rewrite Hm in Hb.
Qed.

(** X20.  A tick with a truthy [symbol] and a truthy [price], under a key that is
    no inherited property name, is recorded (with at least one point
    allowed): the new point is the last of that symbol's history, which is
    the old history with the point appended, or, when the old history was
    full, without its oldest point; the histories of the other symbols are
    untouched. *)
Theorem price_point_recorded
    (now : Z) (detail : WsManager.Value) (ws : option WsManager.State)
    (this : State) (symbol price : WsManager.Value)
    (Hsymbol : WsManager.get detail "symbol" = Some symbol)
    (Hprice : WsManager.get detail "price" = Some price)
    (Htsymbol : WsManager.truthy symbol = true)
    (Htprice : WsManager.truthy price = true)
    (Hkey : to_property_key symbol ∉ inherited_keys)
    (Hmax : 1 ≤ maxDataPoints this) :
  let key := to_property_key symbol in
  let old := default [] (priceHistory this !! key) in
  let this' := handle now detail ws this in
  priceHistory this' !! key
    = Some (if decide (length old < maxDataPoints this)
            then old ++ [mkPoint now price]
            else tail old ++ [mkPoint now price]) /\
  (exists h', priceHistory this' !! key = Some h' /\
              last h' = Some (mkPoint now price)) /\
  (forall k, k <> key -> priceHistory this' !! k = priceHistory this !! k).
Proof.
  cbv zeta. unfold handleMarketDataUpdate. simpl.
  rewrite Hsymbol, Hprice, Htsymbol, Htprice. simpl.
  set (key := to_property_key symbol) in *.
  set (pt := mkPoint now price).
  assert (Hkept : forall h0,
    (if (maxDataPoints this <? length (h0 ++ [pt]))%nat
     then WsManager.shift (h0 ++ [pt]) else h0 ++ [pt])
    = (if decide (length h0 < maxDataPoints this)
       then h0 ++ [pt] else tail h0 ++ [pt])).
  { intros h0. rewrite length_app. simpl.
    destruct (Nat.ltb_spec (maxDataPoints this) (length h0 + 1)) as [Hgt | Hle].
    - rewrite decide_False by lia. unfold WsManager.shift.
      destruct h0 as [|p0 rest]; [simpl in *; lia | done].
    - by rewrite decide_True by lia. }
  assert (Hlast : forall h0,
    last (if decide (length h0 < maxDataPoints this)
          then h0 ++ [pt] else tail h0 ++ [pt]) = Some pt).
  { intros h0. destruct (decide _); apply last_snoc. }
  assert (Hexisting :
    match priceHistory this !! key with
    | Some h => Some h
    | None => if bool_decide (key ∈ inherited_keys) then None else Some []
    end = Some (default [] (priceHistory this !! key))).
  { destruct (priceHistory this !! key); [done |].
    by rewrite bool_decide_eq_false_2. }
  rewrite Hexisting. simpl. rewrite lookup_insert_eq.
  rewrite (Hkept (default [] (priceHistory this !! key))).
  split; [done | split].
  - eexists. split; [reflexivity | apply Hlast].
  - intros k Hk. by rewrite lookup_insert_ne.
Qed.

(** X21.  A tick is not recorded when its [symbol] or its [price] is missing or
    falsy (a price of zero, for one), nor when its symbol is an inherited
    property name that has no history: the histories and the selection stay
    as they are. *)
Theorem tick_ignored
    (now : Z) (detail : WsManager.Value) (ws : option WsManager.State)
    (this : State)
    (Hignored :
       (forall symbol, WsManager.get detail "symbol" = Some symbol ->
                       WsManager.truthy symbol = false) \/
       (forall price, WsManager.get detail "price" = Some price ->
                      WsManager.truthy price = false) \/
       (exists symbol, WsManager.get detail "symbol" = Some symbol /\
                       to_property_key symbol ∈ inherited_keys /\
                       priceHistory this !! to_property_key symbol = None)) :
  priceHistory (handle now detail ws this) = priceHistory this /\
  selectedSymbol (handle now detail ws this) = selectedSymbol this.
Proof.
  unfold handleMarketDataUpdate. simpl.
  destruct (WsManager.get detail "symbol") as [symbol|]; [| done].
  destruct (WsManager.get detail "price") as [price|]; [| done].
  destruct Hignored as [H | [H | (symbol' & [= <-] & Hin & Hnone)]].
  - by rewrite (H symbol eq_refl).
  - rewrite (H price eq_refl). by rewrite andb_false_r.
  - destruct (WsManager.truthy symbol && WsManager.truthy price); [| done].
    rewrite Hnone. by rewrite bool_decide_eq_true_2.
Qed.

(** X22.  The handler never replaces a selection: a non-empty [selectedSymbol]
    is kept, and an empty one either stays empty or becomes the first key
    of the market data. *)
Theorem selection_kept
    (now : Z) (detail : WsManager.Value) (ws : option WsManager.State)
    (this : State) :
  let this' := handle now detail ws this in
  (selectedSymbol this <> "" -> selectedSymbol this' = selectedSymbol this) /\
  (selectedSymbol this' = selectedSymbol this \/
   head (object_keys (marketData this')) = Some (selectedSymbol this')).
Proof.
  cbv zeta. unfold handleMarketDataUpdate. simpl.
  destruct (WsManager.get detail "symbol") as [symbol|]; [| by split; [| left]].
  destruct (WsManager.get detail "price") as [price|]; [| by split; [| left]].
  destruct (WsManager.truthy symbol && WsManager.truthy price);
    [| by split; [| left]].
  destruct (match priceHistory this !! to_property_key symbol with
            | Some h => Some h
            | None => if bool_decide (to_property_key symbol ∈ inherited_keys)
                      then None else Some []
            end) as [h|]; [| by split; [| left]].
  simpl. destruct (String.eqb_spec (selectedSymbol this) "") as [E | E]; simpl.
  - set (keys := object_keys _).
    destruct keys as [|k0 rest]; simpl; split; try done; [by left | by right].
  - split; [done | by left].
Qed.

End Handler.

Lemma price_history_bounded_witness :
  bounded (handleMarketDataUpdate WsManager.Scenario.key (fun _ => []) 5
             (WsManager.JObj [("symbol", WsManager.JStr "600000");
                              ("price", WsManager.JNum 10)])
             None initial).
Proof.
  apply (price_history_bounded WsManager.Scenario.key (fun _ => []) 5 _ None
                               initial []).
  intros key h Hh. simpl in Hh. rewrite lookup_empty in Hh. discriminate.
Defined.

Lemma price_point_recorded_witness :
  priceHistory (handleMarketDataUpdate WsManager.Scenario.key (fun _ => []) 5
                  (WsManager.JObj [("symbol", WsManager.JStr "600000");
                                   ("price", WsManager.JNum 10)])
                  None initial) !! "600000"
  = Some [mkPoint 5 (WsManager.JNum 10)].
Proof.
  apply (proj1 (price_point_recorded WsManager.Scenario.key (fun _ => []) 5
                  (WsManager.JObj [("symbol", WsManager.JStr "600000");
                                   ("price", WsManager.JNum 10)])
                  None initial _ _ eq_refl eq_refl eq_refl eq_refl
                  ltac:(apply (bool_decide_unpack _); vm_compute; exact I)
                  ltac:(simpl; lia))).
Defined.

Lemma tick_ignored_witness :
  priceHistory (handleMarketDataUpdate WsManager.Scenario.key (fun _ => []) 5
                  (WsManager.JObj [("symbol", WsManager.JStr "600000");
                                   ("price", WsManager.JNum 0)])
                  None initial) = ∅.
Proof.
  apply (tick_ignored WsManager.Scenario.key (fun _ => []) 5 _ None initial).
  right; left. intros price [= <-]. reflexivity.
Defined.

Lemma selection_kept_witness :
  selectedSymbol (handleMarketDataUpdate WsManager.Scenario.key (fun _ => []) 5
                    (WsManager.JObj [("symbol", WsManager.JStr "600000");
                                     ("price", WsManager.JNum 10)])
                    None (mkMonitor ∅ ∅ "000001" 100)) = "000001".
Proof.
  apply (proj1 (selection_kept WsManager.Scenario.key (fun _ => []) 5 _ None
                               (mkMonitor ∅ ∅ "000001" 100))).
  discriminate.
Defined.

End RealTimeMonitorFacts.

(** ** The status texts of the order list *)
Module OrderManagementFacts.

Import WsManager OrderManagement.

(** X23.  [getStatusText] agrees with [statusOptions]: a status that the options
    list is shown with the label of its option, and every other value is
    shown as it is.  [getStatusType] always returns one of the four tag
    types [info], [success], [warning] and [danger]. *)
Theorem status_text_matches_options (status : Value) :
  getStatusText status =
    match option_label status with
    | Some label => JStr label
    | None => status
    end /\
  getStatusType status ∈ ["info"; "success"; "warning"; "danger"].
Proof.
  unfold getStatusText, getStatusType, option_label, statusOptions. simpl.
  split.
  - repeat match goal with
           | |- context [strict_eq ?a ?b] => destruct (strict_eq a b)
           end; reflexivity.
  - repeat match goal with
           | |- context [strict_eq ?a ?b] => destruct (strict_eq a b)
           end; set_solver.
Qed.

End OrderManagementFacts.

(** ** The strategy switches of the stock list *)
Module StockConfigFacts.

Import WsManager StockConfig.

Lemma or_false_cases (v : Value) :
  or_false v = JBool false \/ truthy (or_false v) = true.
Proof.
  unfold or_false. destruct (truthy v) eqn:E; [by right | by left].
Qed.

(** X24.  [getStrategyStatus] throws only on a [null] or [undefined] stock, and
    then only for the strategies ["high_open"] and ["auto_trade"]; for any
    other strategy it returns [false].  What it returns is [false] or a
    truthy value, never another falsy one; on a stock of the form's shape
    it returns the [enabled] flag of the strategy asked for. *)
Theorem strategy_status (stock strategy : Value) :
  (getStrategyStatus stock strategy = None <->
   (stock = JUndefined \/ stock = JNull) /\
   (strategy = JStr "high_open" \/ strategy = JStr "auto_trade")) /\
  (strategy <> JStr "high_open" -> strategy <> JStr "auto_trade" ->
   getStrategyStatus stock strategy = Some (JBool false)) /\
  (forall result, getStrategyStatus stock strategy = Some result ->
     result = JBool false \/ truthy result = true) /\
  (forall b1 b2 : bool,
     getStrategyStatus (form_stock (JBool b1) (JBool b2)) (JStr "high_open")
       = Some (JBool b1) /\
     getStrategyStatus (form_stock (JBool b1) (JBool b2)) (JStr "auto_trade")
       = Some (JBool b2)).
Proof.
  assert (Hget : forall v, get v "config" = None <-> v = JUndefined \/ v = JNull).
  { intros v. destruct v; simpl; split; try done; try (by left); try (by right);
      intros [? | ?]; discriminate. }
  unfold getStrategyStatus.
  destruct (strict_eq strategy (JStr "high_open")) eqn:E1;
    [| destruct (strict_eq strategy (JStr "auto_trade")) eqn:E2].
  - apply WsManagerFacts.strict_eq_JStr in E1 as ->.
    split; [| split; [done | split]].
    + destruct (get stock "config") eqn:G.
      * split; [done |]. intros [Hs _]. apply Hget in Hs. congruence.
      * split; [| done]. intros _. split; [by apply Hget | by left].
    + intros result. destruct (get stock "config"); [| done].
      intros [= <-]. apply or_false_cases.
    + intros [|] [|]; split; reflexivity.
  - apply WsManagerFacts.strict_eq_JStr in E2 as ->.
    split; [| split; [done | split]].
    + destruct (get stock "config") eqn:G.
      * split; [done |]. intros [Hs _]. apply Hget in Hs. congruence.
      * split; [| done]. intros _. split; [by apply Hget | by right].
    + intros result. destruct (get stock "config"); [| done].
      intros [= <-]. apply or_false_cases.
    + intros [|] [|]; split; reflexivity.
  - split; [| split; [done | split]].
    + split; [done |]. intros [_ [-> | ->]]; discriminate.
    + intros result [= <-]. by left.
    + intros [|] [|]; split; reflexivity.
Qed.

Lemma strategy_status_witness :
  getStrategyStatus (form_stock (JBool true) (JBool false)) (JStr "other")
  = Some (JBool false).
Proof.
  apply (proj1 (proj2 (strategy_status _ (JStr "other")))); discriminate.
Defined.

End StockConfigFacts.
